(** * Gift-certificate Telegram bot ([bot.py]): a shallow embedding

    The handlers of [bot.py] are embedded as functions in a small monad that
    threads the per-user dictionary [context.user_data], records what the
    handler sends (replies, backend calls) and carries Python exceptions.
    Python [str] is a list of Unicode code points; the character tables of
    the interpreter ([str.isspace], [str.isdigit], the decimal digits that
    [int()] reads, [str.lower]) are an interface, [Unicode]. *)

From Stdlib Require Import ZArith NArith List Lia DecimalPos DecimalN DecimalZ.
From stdpp Require Import base option list gmap strings.

Local Open Scope N_scope.

(** ** Python strings *)

(** A character is its code point; a string is the list of its characters. *)
Abbreviation char := N (only parsing).
Abbreviation str := (list N) (only parsing).

Module Utf8.

(** Reads the UTF-8 bytes of a source literal as code points.  Only used
    to write the string constants of [bot.py]. *)
Fixpoint decode (bs : list N) : str :=
  match bs with
  | [] => []
  | b0 :: r0 =>
    if b0 <? 128 then b0 :: decode r0
    else match r0 with
      | [] => []
      | b1 :: r1 =>
        if b0 <? 224 then ((b0 - 192) * 64 + (b1 - 128)) :: decode r1
        else match r1 with
          | [] => []
          | b2 :: r2 =>
            if b0 <? 240
            then ((b0 - 224) * 4096 + (b1 - 128) * 64 + (b2 - 128)) :: decode r2
            else match r2 with
              | [] => []
              | b3 :: r3 =>
                ((b0 - 240) * 262144 + (b1 - 128) * 4096
                 + (b2 - 128) * 64 + (b3 - 128)) :: decode r3
              end
          end
      end
  end.

Fixpoint bytes (s : string) : list N :=
  match s with
  | EmptyString => []
  | String a r => Ascii.N_of_ascii a :: bytes r
  end.

End Utf8.

Definition utf8 (s : string) : str := Utf8.decode (Utf8.bytes s).
Arguments utf8 s%_string.

(** [s.startswith(p)] *)
Fixpoint startswith (s p : str) : bool :=
  match p, s with
  | [], _ => true
  | _ :: _, [] => false
  | a :: p', b :: s' => (a =? b) && startswith s' p'
  end.

(** [p in s] for strings: [p] occurs in [s] as a contiguous slice. *)
Fixpoint contains (s p : str) : bool :=
  startswith s p ||
  match s with
  | [] => false
  | _ :: s' => contains s' p
  end.

(** [sep.join(parts)] *)
Fixpoint join (sep : str) (parts : list str) : str :=
  match parts with
  | [] => []
  | [p] => p
  | p :: rest => p ++ sep ++ join sep rest
  end.

(** [s.replace(c, r)] for a one-character pattern [c]. *)
Definition replace (c : char) (r : str) (s : str) : str :=
  flat_map (fun x => if x =? c then r else [x]) s.

(** [s.split(sep, 1)] for a one-character separator: one part when [sep]
    does not occur, otherwise the text before the first [sep] and the rest. *)
Fixpoint split1 (sep : char) (s : str) : str * option str :=
  match s with
  | [] => ([], None)
  | c :: r =>
    if c =? sep then ([], Some r)
    else let '(a, b) := split1 sep r in (c :: a, b)
  end.

(** ** The interpreter's character tables *)

Definition ascii_isspace (c : char) : bool :=
  ((9 <=? c) && (c <=? 13)) || ((28 <=? c) && (c <=? 32)).

Definition ascii_isdigit (c : char) : bool := (48 <=? c) && (c <=? 57).

Definition ascii_lower (c : char) : char :=
  if (65 <=? c) && (c <=? 90) then c + 32 else c.

(** The Unicode character database as [bot.py] consults it through [str]
    methods and [int()].  The tables themselves belong to the interpreter;
    the laws are the facts about them that the handlers rely on. *)
Class Unicode := {
  (** [ch.isspace()], the characters [str.strip()] removes and [int()] skips *)
  isspace : char -> bool;
  (** [ch.isdigit()]: numeric type Digit or Decimal *)
  isdigit : char -> bool;
  (** the value of a decimal digit (category Nd), the only digits [int()] reads *)
  decimal : char -> option N;
  (** [s.lower()] *)
  lower : str -> str;
  decimal_lt10 : forall c d, decimal c = Some d -> d < 10;
  decimal_isdigit : forall c d, decimal c = Some d -> isdigit c = true;
  isdigit_not_isspace : forall c, isdigit c = true -> isspace c = false;
  isspace_ascii : forall c, c < 128 -> isspace c = ascii_isspace c;
  isdigit_ascii : forall c, c < 128 -> isdigit c = ascii_isdigit c;
  decimal_ascii : forall c, c < 128 ->
    decimal c = if ascii_isdigit c then Some (c - 48) else None;
  lower_ascii : forall s, Forall (fun c => c < 128) s -> lower s = map ascii_lower s
}.

Section Strings.
Context {U : Unicode}.

(** Removes the leading characters that satisfy [p]. *)
Fixpoint lstrip_by (p : char -> bool) (s : str) : str :=
  match s with
  | [] => []
  | c :: r => if p c then lstrip_by p r else s
  end.

Definition strip_by (p : char -> bool) (s : str) : str :=
  rev (lstrip_by p (rev (lstrip_by p s))).

(** [s.strip()] *)
Definition strip (s : str) : str := strip_by isspace s.

(** [s.isdigit()]: non-empty and every character is a digit. *)
Definition str_isdigit (s : str) : bool :=
  match s with
  | [] => false
  | _ => forallb isdigit s
  end.

(** The digits of [s], in order: [ch for ch in s if ch.isdigit()], joined. *)
Definition only_digits (s : str) : str := List.filter isdigit s.

(** The digits of an [int()] literal in base 10, most significant first:
    decimal digits, single underscores allowed between two digits.
    [acc] is the value read so far, [after_digit] tells whether the
    previous character was a digit. *)
Fixpoint int_digits (s : str) (acc : N) (after_digit : bool) : option N :=
  match s with
  | [] => if after_digit then Some acc else None
  | c :: r =>
    match decimal c with
    | Some d => int_digits r (10 * acc + d) true
    | None =>
      if (c =? 95) && after_digit then int_digits r acc false else None
    end
  end.

(** The whitespace [int()] skips around a literal: tab to carriage return
    and the space among the ASCII characters (the separators 28 to 31 are
    not skipped, although [str.strip()] removes them), every whitespace
    character beyond ASCII. *)
Definition int_isspace (c : char) : bool :=
  if c <? 128 then ((9 <=? c) && (c <=? 13)) || (c =? 32) else isspace c.

(** [int(s)] for a string [s]; [None] stands for [ValueError].
    Surrounding whitespace is skipped, one sign is allowed.  The
    interpreter's configurable limit on the number of digits (4300 by
    default) lies above the 4096 characters of a Telegram message and is
    not modelled. *)
Definition int_of_str (s : str) : option Z :=
  let t := strip_by int_isspace s in
  match t with
  | c :: r =>
    if c =? 43 then Z.of_N <$> int_digits r 0 false
    else if c =? 45 then (fun n => - Z.of_N n)%Z <$> int_digits r 0 false
    else Z.of_N <$> int_digits t 0 false
  | [] => None
  end.

End Strings.

(** [str(n)] for an integer: decimal digits, a minus sign when negative. *)
Module Repr.

Fixpoint of_uint (d : Decimal.uint) : str :=
  match d with
  | Decimal.Nil => []
  | Decimal.D0 r => 48 :: of_uint r
  | Decimal.D1 r => 49 :: of_uint r
  | Decimal.D2 r => 50 :: of_uint r
  | Decimal.D3 r => 51 :: of_uint r
  | Decimal.D4 r => 52 :: of_uint r
  | Decimal.D5 r => 53 :: of_uint r
  | Decimal.D6 r => 54 :: of_uint r
  | Decimal.D7 r => 55 :: of_uint r
  | Decimal.D8 r => 56 :: of_uint r
  | Decimal.D9 r => 57 :: of_uint r
  end.

Definition of_Z (z : Z) : str :=
  match z with
  | Z0 => [48]
  | Zpos p => of_uint (Pos.to_uint p)
  | Zneg p => 45 :: of_uint (Pos.to_uint p)
  end.

End Repr.

(** ** Python values, exceptions, dictionaries *)

Inductive exn :=
| ValueError
| TypeError
| AttributeError.

Inductive result (A : Type) :=
| Ok (a : A)
| Raise (e : exn).
Arguments Ok {A} a.
Arguments Raise {A} e.

#[global] Instance result_ret : MRet result := fun A a => Ok a.
#[global] Instance result_bind : MBind result := fun A B f m =>
  match m with
  | Ok a => f a
  | Raise e => Raise e
  end.

(** The values found in [context.user_data] and in the decoded JSON of the
    backend.  [PObj] is any value of another type (a float, a list, a
    nested object), given by what the handlers can observe of it: its
    [str()], its truth value and the result of [int()] on it. *)
Inductive pyval :=
| PNone
| PBool (b : bool)
| PInt (z : Z)
| PStr (s : str)
| PObj (shown : str) (truth : bool) (as_int : option Z).

Abbreviation dict := (gmap (list N) pyval) (only parsing).

(** Truth value, as tested by [if v], [not v], [v or w]. *)
Definition truthy (v : pyval) : bool :=
  match v with
  | PNone => false
  | PBool b => b
  | PInt z => negb (z =? 0)%Z
  | PStr s => match s with [] => false | _ => true end
  | PObj _ t _ => t
  end.

(** [v or w] *)
Definition por (v w : pyval) : pyval := if truthy v then v else w.

(** [str(v)], also what an f-string prints for [{v}]. *)
Definition py_str (v : pyval) : str :=
  match v with
  | PNone => utf8 "None"
  | PBool true => utf8 "True"
  | PBool false => utf8 "False"
  | PInt z => Repr.of_Z z
  | PStr s => s
  | PObj shown _ _ => shown
  end.

Section Values.
Context {U : Unicode}.

(** [int(v)] *)
Definition py_int (v : pyval) : result Z :=
  match v with
  | PNone => Raise TypeError
  | PBool b => Ok (if b then 1 else 0)%Z
  | PInt z => Ok z
  | PStr s => match int_of_str s with Some z => Ok z | None => Raise ValueError end
  | PObj _ _ (Some z) => Ok z
  | PObj _ _ None => Raise TypeError
  end.

(** A method of [str] called on [v]: [AttributeError] when [v] is not a
    string. *)
Definition str_method (f : str -> str) (v : pyval) : result str :=
  match v with
  | PStr s => Ok (f s)
  | _ => Raise AttributeError
  end.

(** An operand of a string concatenation: [TypeError] when [v] is not a
    string. *)
Definition str_operand (v : pyval) : result str :=
  match v with
  | PStr s => Ok s
  | _ => Raise TypeError
  end.

End Values.

(** [d.get(k)] and [d.get(k, dflt)] *)
Definition get (d : dict) (k : str) : pyval := default PNone (d !! k).
Definition get_or (d : dict) (k : str) (dflt : pyval) : pyval := default dflt (d !! k).

(** ** What a handler does: Telegram replies and backend calls *)

Inductive button :=
| CallbackButton (label data : str)
| UrlButton (label url : str).

Inductive markup :=
| ReplyKeyboardMarkup (keyboard : list (list str))
| ReplyKeyboardRemove
| InlineKeyboardMarkup (rows : list (list button)).

(** One entry per message sent to the chat and per call of an [api_*]
    function, in program order. *)
Inductive effect :=
| reply_text (text : str) (reply_markup : option markup) (parse_mode : option str)
| reply_document (name : str) (document : list N) (caption : str)
| answer (text : option str) (show_alert : bool)
| call_create (payload : dict)
| call_list (params : dict)
| call_post (url : str) (payload : dict)
| call_get (giftcert_id : Z) (code : str)
| call_use (giftcert_id : Z) (code : str) (note : str)
| call_download_pdf (giftcert_id : Z) (code : str).

(** The decoded JSON object an [api_*] function returns: its scalar
    members, the nested certificate under ["cert"] and the list under
    ["rows"] when present. *)
Record response := {
  fields : dict;
  cert_of : option dict;
  rows_of : option (list dict)
}.

(** The backend behind the [api_*] functions: what each call answers.
    [backend_pdf] answers the content, or the message of the
    [RuntimeError] that [api_download_pdf] raises. *)
Record backend := {
  backend_create : dict -> response;
  backend_list : dict -> response;
  backend_post : str -> dict -> response;
  backend_get : Z -> str -> response;
  backend_use : Z -> str -> str -> response;
  backend_pdf : Z -> str -> str + list N
}.

(** Module-level configuration read from the environment. *)
Record config := {
  TG_ADMIN_IDS : gset Z;
  OC_BASE_URL : str;
  SHEET_URL : str
}.

(** The incoming update: the user it comes from, [update.message] with its
    [text], and [update.callback_query] with its [data].  An update is a
    new message or a button press; edited messages and channel posts are
    not modelled. *)
Record update := {
  effective_user : option Z;
  message : option (option str);
  callback_query : option (option str)
}.

(** ** The handler monad

    A handler runs on [context.user_data], appends to the trace, and either
    returns or raises; what it wrote to [user_data] before raising stays
    written. *)
Definition M (A : Type) : Type := dict -> list effect * dict * result A.

#[global] Instance M_ret : MRet M := fun A a ud => ([], ud, Ok a).
#[global] Instance M_bind : MBind M := fun A B f m ud =>
  match m ud with
  | (t, ud', Ok a) => let '(t', ud'', r) := f a ud' in (t ++ t', ud'', r)
  | (t, ud', Raise e) => (t, ud', Raise e)
  end.

Definition emit (e : effect) : M unit := fun ud => ([e], ud, Ok tt).
Definition lift {A} (r : result A) : M A := fun ud => ([], ud, r).
Definition user_data : M dict := fun ud => ([], ud, Ok ud).
Definition user_data_set (k : str) (v : pyval) : M unit := fun ud => ([], <[k := v]> ud, Ok tt).
Definition user_data_clear : M unit := fun _ => ([], ∅, Ok tt).

(** The trace, the final [user_data] and the outcome of a run. *)
Definition trace_of {A} (r : list effect * dict * result A) : list effect := r.1.1.
Definition data_of {A} (r : list effect * dict * result A) : dict := r.1.2.
Definition outcome_of {A} (r : list effect * dict * result A) : result A := r.2.

#[global] Instance pyval_eq_dec : EqDecision pyval.
Proof. solve_decision. Defined.

(** ** Module constants *)

Definition nl : str := [10].

(** [s == t] on strings, and the truth value of a string. *)
Definition str_eqb (s t : str) : bool := bool_decide (s = t).
Definition nonempty (s : str) : bool := match s with [] => false | _ => true end.

Definition NON_ADMIN_SCAN_TEXT : str :=
  utf8 "Чтобы воспользоваться 🎁 Подарочным сертификатом, приглашаем вас в нашу виртуальную арену VRPOINT.BY 🕶✨" ++ nl ++
  utf8 "Забронировать услугу можно на сайте: https://vrpoint.by 🌐" ++ nl ++ nl ++
  utf8 "📍 Наши адреса в Минске:" ++ nl ++
  utf8 "• Я. Коласа, 37" ++ nl ++
  utf8 "• Маяковского, 6 (ТЦ «Червенский»)" ++ nl ++ nl ++
  utf8 "📞 Телефон для связи: +375291419921" ++ nl ++ nl ++
  utf8 "До встречи в VR 🚀🎮".

(** Conversation states, and what a conversation handler returns. *)
Inductive state :=
| AMOUNT
| RECIPIENT_NAME
| DONOR_FIRST
| DONOR_LAST
| RECIPIENT_EMAIL
| ACTION.

Inductive next :=
| Next (s : state)
| END.

#[global] Instance state_eq_dec : EqDecision state.
Proof. solve_decision. Defined.

Section Bot.
Context {U : Unicode} (C : config) (B : backend).

Definition api_route (name : str) : str :=
  (if nonempty (OC_BASE_URL C) then OC_BASE_URL C ++ utf8 "/" else []) ++
  utf8 "index.php?route=extension/module/giftcert_pdf_api/" ++ name.

Definition API_CREATE : str := api_route (utf8 "create").
Definition API_PDF : str := api_route (utf8 "pdf").
Definition API_LIST : str := api_route (utf8 "list").
Definition API_RESEND : str := api_route (utf8 "resend").
Definition API_ANNUL : str := api_route (utf8 "annul").
Definition API_DELETE : str := api_route (utf8 "delete").
Definition API_GET : str := api_route (utf8 "get").
Definition API_USE : str := api_route (utf8 "use").

(** *** Helpers *)

Definition is_admin (u : update) : bool :=
  let uid := match effective_user u with Some id => id | None => 0%Z end in
  bool_decide (TG_ADMIN_IDS C = ∅) || bool_decide (uid ∈ TG_ADMIN_IDS C).

(** The [api_*] functions: each records its call and answers what the
    backend answers (they turn network failures into a response with a
    false ["success"] themselves). *)
Definition api_create (payload : dict) : M response :=
  emit (call_create payload);; mret (backend_create B payload).

Definition api_list (params : dict) : M response :=
  emit (call_list params);; mret (backend_list B params).

Definition api_post (url : str) (payload : dict) : M response :=
  emit (call_post url payload);; mret (backend_post B url payload).

Definition api_get (giftcert_id : Z) (code : str) : M response :=
  emit (call_get giftcert_id code);; mret (backend_get B giftcert_id code).

Definition api_use (giftcert_id : Z) (code : str) (note : str) : M response :=
  emit (call_use giftcert_id code note);; mret (backend_use B giftcert_id code note).

(** [api_download_pdf] raises [RuntimeError]; both callers wrap it in
    [try ... except Exception as e], so the failure is returned as the
    message [e] prints. *)
Definition api_download_pdf (giftcert_id : Z) (code : str) : M (str + list N) :=
  emit (call_download_pdf giftcert_id code);; mret (backend_pdf B giftcert_id code).

(** [resp.get("success")] is truthy. *)
Definition success (resp : response) : bool := truthy (get (fields resp) (utf8 "success")).

Definition esc_html (s : pyval) : str :=
  let s := match s with PNone => [] | _ => py_str s end in
  replace 62 (utf8 "&gt;") (replace 60 (utf8 "&lt;") (replace 38 (utf8 "&amp;") s)).

Definition status_emoji (status : pyval) : result str :=
  s ← str_method lower (por status (PStr []));
  if str_eqb s (utf8 "used") then Ok (utf8 "♻️")
  else if str_eqb s (utf8 "annulled") then Ok (utf8 "🚫")
  else if contains s (utf8 "error") then Ok (utf8 "⚠️")
  else Ok (utf8 "✅").

Definition status_label (status : pyval) : result pyval :=
  s ← str_method lower (por status (PStr []));
  if str_eqb s (utf8 "used") then Ok (PStr (utf8 "Использован"))
  else if str_eqb s (utf8 "annulled") then Ok (PStr (utf8 "Аннулирован"))
  else if str_eqb s (utf8 "sent") then Ok (PStr (utf8 "Отправлен"))
  else if str_eqb s (utf8 "manual") then Ok (PStr (utf8 "Создан вручную"))
  else if str_eqb s (utf8 "send_error") then Ok (PStr (utf8 "Ошибка отправки"))
  else Ok (por status (PStr (utf8 "—"))).

(** The loop of [format_cert] over the four timestamp members. *)
Fixpoint timestamp_lines (cert : dict) (ks : list (str * str)) : result (list str) :=
  match ks with
  | [] => Ok []
  | (k, title) :: rest =>
    v ← str_method strip (por (get cert k) (PStr []));
    more ← timestamp_lines cert rest;
    Ok ((if nonempty v
         then [title ++ utf8 ": <code>" ++ esc_html (PStr v) ++ utf8 "</code>"]
         else []) ++ more)
  end.

Definition format_cert (cert : dict) : result str :=
  let gid := get_or cert (utf8 "giftcert_id") (PStr []) in
  let code := get_or cert (utf8 "code") (PStr []) in
  let amount := get_or cert (utf8 "amount") (PStr []) in
  let st := get_or cert (utf8 "status") (PStr []) in
  let src := por (get cert (utf8 "source")) (PStr (utf8 "—")) in
  emoji ← status_emoji st;
  label ← status_label st;
  let head :=
    [ utf8 "🎟 <b>Сертификат</b>";
      utf8 "ID: <b>" ++ esc_html gid ++ utf8 "</b>";
      utf8 "Код: <b>" ++ esc_html code ++ utf8 "</b>";
      utf8 "Сумма: <b>" ++ esc_html amount ++ utf8 " BYN</b>";
      utf8 "Статус: " ++ emoji ++ utf8 " <b>" ++ esc_html label ++ utf8 "</b>";
      utf8 "Источник: <code>" ++ esc_html src ++ utf8 "</code>" ] in
  rn ← str_method strip (por (get cert (utf8 "recipient_name")) (PStr []));
  reml ← str_method strip (por (get cert (utf8 "recipient_email")) (PStr []));
  let recipient :=
    if nonempty rn || nonempty reml
    then [ utf8 "Получатель: <b>" ++ esc_html (por (PStr rn) (PStr (utf8 "—")))
           ++ utf8 "</b> — " ++ esc_html (por (PStr reml) (PStr (utf8 "—"))) ]
    else [] in
  lastname ← str_operand (por (get cert (utf8 "lastname")) (PStr []));
  firstname ← str_operand (por (get cert (utf8 "firstname")) (PStr []));
  let donor := strip (lastname ++ utf8 " " ++ firstname) in
  let donor_line :=
    if nonempty donor
    then [ utf8 "Даритель: <b>" ++ esc_html (PStr donor) ++ utf8 "</b>" ]
    else [] in
  stamps ← timestamp_lines cert
    [ (utf8 "created_at", utf8 "Создан"); (utf8 "sent_at", utf8 "Отправлен");
      (utf8 "used_at", utf8 "Использован"); (utf8 "annulled_at", utf8 "Аннулирован") ];
  oid ← py_int (por (get cert (utf8 "order_id")) (PInt 0));
  let order :=
    if negb (oid =? 0)%Z
    then [ utf8 "Заказ: <code>#" ++ Repr.of_Z oid ++ utf8 "</code>" ]
    else [] in
  Ok (join nl (head ++ recipient ++ donor_line ++ stamps ++ order)).

Definition build_cert_keyboard (cert : dict) : result markup :=
  gid ← py_int (por (get cert (utf8 "giftcert_id")) (PInt 0));
  st ← str_method lower (por (get cert (utf8 "status")) (PStr []));
  let token (verb : str) := verb ++ utf8 ":" ++ Repr.of_Z gid in
  Ok (InlineKeyboardMarkup
    ([ [ CallbackButton (utf8 "📄 PDF") (token (utf8 "pdf"));
         CallbackButton (utf8 "✉️ Email") (token (utf8 "email")) ] ] ++
     (if negb (str_eqb st (utf8 "used") || str_eqb st (utf8 "annulled"))
      then [ [ CallbackButton (utf8 "✅ Использовать") (token (utf8 "use"));
               CallbackButton (utf8 "🚫 Аннулировать") (token (utf8 "annul")) ] ]
      else []) ++
     [ [ CallbackButton (utf8 "🗑 Удалить") (token (utf8 "del")) ] ])).

(** [await update.message.reply_text(...)]: needs [update.message]. *)
Definition reply (u : update) (text : str) (reply_markup : option markup)
    (parse_mode : option str) : M unit :=
  match message u with
  | Some _ => emit (reply_text text reply_markup parse_mode)
  | None => lift (Raise AttributeError)
  end.

Definition reply_doc (u : update) (name : str) (document : list N) (caption : str) : M unit :=
  match message u with
  | Some _ => emit (reply_document name document caption)
  | None => lift (Raise AttributeError)
  end.

(** The text of [update.message], or the empty string, stripped. *)
Definition stripped_text (u : update) : M str :=
  match message u with
  | Some t => mret (strip (default [] t))
  | None => lift (Raise AttributeError)
  end.

(** [resp.get("error") or resp.get("message") or resp.get("raw") or dflt] *)
Definition error_of (resp : response) (dflt : pyval) : pyval :=
  por (get (fields resp) (utf8 "error"))
    (por (get (fields resp) (utf8 "message"))
      (por (get (fields resp) (utf8 "raw")) dflt)).

Definition fetch_cert_by_id (giftcert_id : Z) : M (option dict * pyval) :=
  resp ← api_get giftcert_id [];
  if negb (success resp)
  then mret (None, error_of resp (PStr (utf8 "Не найден.")))
  else mret (Some (default ∅ (cert_of resp)), PStr []).

Definition show_cert_by_code (u : update) (code : str) : M unit :=
  resp ← api_get 0 code;
  if negb (success resp) then
    let msg := error_of resp (PStr (utf8 "Сертификат не найден.")) in
    reply u (utf8 "❌ Сертификат не найден." ++ nl ++ utf8 "Код: " ++ code ++ nl ++ nl
             ++ take 300 (py_str msg)) None None
  else
    let cert := default ∅ (cert_of resp) in
    text ← lift (format_cert cert);
    kb ← lift (build_cert_keyboard cert);
    reply u text (Some kb) (Some (utf8 "HTML")).

(** *** Commands and handlers *)

(** The tail of [start]: [/start] without a code. *)
Definition start_menu (u : update) : M unit :=
  if negb (is_admin u) then reply u (utf8 "Доступ ограничен.") None None
  else
    let kb := [ [ utf8 "➕ Создать сертификат"; utf8 "📒 Журнал" ] ] ++
              (if nonempty (SHEET_URL C) then [ [ utf8 "🔗 Открыть Google-таблицу" ] ] else []) in
    reply u (utf8 "Выберите действие:") (Some (ReplyKeyboardMarkup kb)) None.

(** The code a deep-link payload carries. *)
Definition deeplink_code (payload : str) : str :=
  if startswith payload (utf8 "gc_") || startswith payload (utf8 "gc-")
  then only_digits (drop 3 payload)
  else only_digits payload.

Definition start (u : update) (args : list str) : M unit :=
  let payload := match args with a :: _ => strip a | [] => [] end in
  if nonempty payload then
    let code := deeplink_code payload in
    if nonempty code && negb (is_admin u) then
      reply u NON_ADMIN_SCAN_TEXT None None
    else if nonempty code then
      show_cert_by_code u code
    else start_menu u
  else start_menu u.

Definition sheet_cmd (u : update) : M unit :=
  if negb (is_admin u) then reply u (utf8 "Доступ ограничен.") None None
  else if negb (nonempty (SHEET_URL C)) then
    reply u (utf8 "Ссылка на таблицу не настроена.") None None
  else
    reply u (utf8 "Журнал сертификатов:")
      (Some (InlineKeyboardMarkup [ [ UrlButton (utf8 "Открыть журнал") (SHEET_URL C) ] ])) None.

Definition new_cmd (u : update) : M next :=
  if negb (is_admin u) then
    reply u (utf8 "Доступ ограничен.") None None;; mret END
  else
    user_data_clear;;
    reply u (utf8 "Введите сумму (BYN), только цифры. Например: 70" ++ nl ++ nl
             ++ utf8 "/cancel — отмена") (Some ReplyKeyboardRemove) None;;
    mret (Next AMOUNT).

Definition cancel (u : update) : M next :=
  user_data_clear;;
  match message u with
  | Some _ => emit (reply_text (utf8 "Отменено.") (Some ReplyKeyboardRemove) None)
  | None => mret tt
  end;;
  mret END.

Definition on_amount (u : update) : M next :=
  s ← stripped_text u;
  if negb (str_isdigit s) then
    reply u (utf8 "Нужно число > 0. Пример: 70") None None;; mret (Next AMOUNT)
  else
    n ← lift (py_int (PStr s));
    if (n <=? 0)%Z then
      reply u (utf8 "Нужно число > 0. Пример: 70") None None;; mret (Next AMOUNT)
    else
      user_data_set (utf8 "amount") (PInt n);;
      reply u (utf8 "Имя получателя (опционально). Или напишите '-' чтобы пропустить.") None None;;
      mret (Next RECIPIENT_NAME).

(** [x if s == "-" else s] with the empty string for [x] *)
Definition skip_dash (s : str) : str := if str_eqb s (utf8 "-") then [] else s.

Definition on_recipient_name (u : update) : M next :=
  s ← stripped_text u;
  user_data_set (utf8 "recipient_name") (PStr (skip_dash s));;
  reply u (utf8 "Имя дарителя (опционально). Или '-' чтобы пропустить.") None None;;
  mret (Next DONOR_FIRST).

Definition on_donor_first (u : update) : M next :=
  s ← stripped_text u;
  user_data_set (utf8 "firstname") (PStr (skip_dash s));;
  reply u (utf8 "Фамилия дарителя (опционально). Или '-' чтобы пропустить.") None None;;
  mret (Next DONOR_LAST).

Definition on_donor_last (u : update) : M next :=
  s ← stripped_text u;
  user_data_set (utf8 "lastname") (PStr (skip_dash s));;
  reply u (utf8 "Email получателя (опционально). Или '-' чтобы пропустить.") None None;;
  mret (Next RECIPIENT_EMAIL).

Definition on_recipient_email (u : update) : M next :=
  s ← stripped_text u;
  user_data_set (utf8 "recipient_email") (PStr (skip_dash s));;
  ud ← user_data;
  let amount := get ud (utf8 "amount") in
  let recipient_name := get_or ud (utf8 "recipient_name") (PStr []) in
  let firstname := get_or ud (utf8 "firstname") (PStr []) in
  let lastname := get_or ud (utf8 "lastname") (PStr []) in
  let recipient_email := get_or ud (utf8 "recipient_email") (PStr []) in
  fn ← lift (str_operand firstname);
  ln ← lift (str_operand lastname);
  let summary :=
    utf8 "Проверьте данные:" ++ nl ++
    utf8 "• Сумма: " ++ py_str amount ++ utf8 " BYN" ++ nl ++
    utf8 "• Получатель: " ++ py_str (por recipient_name (PStr (utf8 "—"))) ++ nl ++
    utf8 "• Даритель: " ++ py_str (por (PStr (strip (fn ++ utf8 " " ++ ln))) (PStr (utf8 "—"))) ++ nl ++
    utf8 "• Email: " ++ py_str (por recipient_email (PStr (utf8 "—"))) ++ nl ++ nl ++
    utf8 "Как отправить?" in
  let kb := ReplyKeyboardMarkup
    [ [ utf8 "📄 PDF в Telegram"; utf8 "✉️ На email" ]; [ utf8 "❌ Отмена" ] ] in
  reply u summary (Some kb) None;;
  mret (Next ACTION).

(** The creation request [on_action] builds from [user_data]. *)
Definition creation_payload (ud : dict) (send_email : bool) : dict :=
  {[ utf8 "amount" := get_or ud (utf8 "amount") (PInt 0);
     utf8 "recipient_name" := get_or ud (utf8 "recipient_name") (PStr []);
     utf8 "firstname" := get_or ud (utf8 "firstname") (PStr []);
     utf8 "lastname" := get_or ud (utf8 "lastname") (PStr []);
     utf8 "recipient_email" := get_or ud (utf8 "recipient_email") (PStr []);
     utf8 "send_email" := PBool send_email ]}.

(** The link to the spreadsheet journal, shown when [SHEET_URL] is set. *)
Definition sheet_link (u : update) (text label : str) : M unit :=
  if nonempty (SHEET_URL C)
  then reply u text (Some (InlineKeyboardMarkup [ [ UrlButton label (SHEET_URL C) ] ])) None
  else mret tt.

Definition on_action (u : update) : M next :=
  text ← stripped_text u;
  if str_eqb text (utf8 "❌ Отмена") then cancel u
  else
    let send_email := str_eqb text (utf8 "✉️ На email") in
    ud ← user_data;
    let payload := creation_payload ud send_email in
    if send_email && negb (truthy (get payload (utf8 "recipient_email"))) then
      reply u (utf8 "Вы выбрали email, но email не указан. Введите email или выберите PDF в Telegram.") None None;;
      mret (Next ACTION)
    else
      reply u (utf8 "Генерирую сертификат…") None None;;
      resp ← api_create payload;
      if negb (success resp) then
        reply u (utf8 "Ошибка API: " ++ py_str (get (fields resp) (utf8 "error")) ++ nl
                 ++ take 500 (py_str (get_or (fields resp) (utf8 "raw") (PStr [])))) None None;;
        mret END
      else
        giftcert_id ← lift (py_int (por (get (fields resp) (utf8 "giftcert_id")) (PInt 0)));
        let code := get_or (fields resp) (utf8 "code") (PStr []) in
        let amount := get_or (fields resp) (utf8 "amount") (get payload (utf8 "amount")) in
        pdf ← api_download_pdf giftcert_id [];
        match pdf with
        | inr pdf_bytes =>
          reply_doc u
            (utf8 "Certificate_" ++ py_str (por code (PInt giftcert_id)) ++ utf8 ".pdf")
            pdf_bytes
            (utf8 "Сертификат создан ✅" ++ nl ++ utf8 "Код: " ++ py_str code ++ nl
             ++ utf8 "Сумма: " ++ py_str amount ++ utf8 " BYN" ++ nl ++ utf8 "Источник: telegram")
        | inl e =>
          reply u (utf8 "Создан, но не смог отправить PDF: " ++ e) None None
        end;;
        sheet_link u (utf8 "Журнал:") (utf8 "📒 Журнал (Google Таблица)");;
        reply u (utf8 "Готово.") (Some ReplyKeyboardRemove) None;;
        mret END.

(** The loop of [journal_cmd]: one card per row. *)
Fixpoint journal_rows (u : update) (rows : list dict) : M unit :=
  match rows with
  | [] => mret tt
  | r :: rest =>
    text ← lift (format_cert r);
    kb ← lift (build_cert_keyboard r);
    reply u text (Some kb) (Some (utf8 "HTML"));;
    journal_rows u rest
  end.

Definition journal_cmd (u : update) : M unit :=
  if negb (is_admin u) then reply u (utf8 "Доступ ограничен.") None None
  else
    resp ← api_list {[ utf8 "start" := PInt 0; utf8 "limit" := PInt 10 ]};
    if negb (success resp) then
      reply u (utf8 "Ошибка API: " ++ py_str (get (fields resp) (utf8 "error"))) None None
    else
      match default [] (rows_of resp) with
      | [] => reply u (utf8 "Журнал пуст.") None None
      | rows =>
        reply u (utf8 "Последние сертификаты (действия под каждым):") None None;;
        journal_rows u rows;;
        sheet_link u (utf8 "Дополнительно:") (utf8 "🔗 Открыть Google-таблицу")
      end.

Definition scan_cmd (u : update) (args : list str) : M unit :=
  match args with
  | [] => reply u (utf8 "Использование: /scan 123456") None None
  | a :: _ =>
    let code := only_digits a in
    if negb (nonempty code) then reply u (utf8 "Нужен числовой код.") None None
    else if negb (is_admin u) then reply u NON_ADMIN_SCAN_TEXT None None
    else show_cert_by_code u code
  end.

Definition pdf_cmd (u : update) (args : list str) : M unit :=
  if negb (is_admin u) then reply u (utf8 "Доступ ограничен.") None None
  else match args with
  | [] => reply u (utf8 "Использование: /pdf 12345 (где 12345 — код сертификата)") None None
  | a :: _ =>
    let code := only_digits a in
    if negb (nonempty code) then reply u (utf8 "Нужен числовой код.") None None
    else
      pdf ← api_download_pdf 0 code;
      match pdf with
      | inr pdf_bytes =>
        reply_doc u (utf8 "Certificate_" ++ code ++ utf8 ".pdf") pdf_bytes
          (utf8 "PDF по коду " ++ code)
      | inl e => reply u (utf8 "Ошибка: " ++ e) None None
      end
  end.

(** [action, gid_s = q.data.split(":", 1); gid = int(gid_s)]; [None]
    when either step raises. *)
Definition callback_token (data : str) : option (str * Z) :=
  match split1 58 data with
  | (action, Some gid_s) => gid ← int_of_str gid_s; Some (action, gid)
  | (_, None) => None
  end.

(** [err]: the first truthy one of the members [error] and [message], or else
    the member [raw] (the empty string when absent),
    shown as [str(err)[:300]]. *)
Definition shown_error (resp : response) : str :=
  take 300 (py_str (por (get (fields resp) (utf8 "error"))
                     (por (get (fields resp) (utf8 "message"))
                          (get_or (fields resp) (utf8 "raw") (PStr []))))).

(** After [use] and [annul]: fetch the certificate again and show its
    card, or [done] when it cannot be fetched. *)
Definition show_refreshed (gid : Z) (done : str) : M unit :=
  '(cert, _) ← fetch_cert_by_id gid;
  match cert with
  | Some c =>
    if bool_decide (c = ∅) then emit (reply_text done None None)
    else
      text ← lift (format_cert c);
      kb ← lift (build_cert_keyboard c);
      emit (reply_text text (Some kb) (Some (utf8 "HTML")))
  | None => emit (reply_text done None None)
  end.

(** The body of [on_callback] once the token is parsed. *)
Definition dispatch (action : str) (gid : Z) : M unit :=
  let id := Repr.of_Z gid in
  if str_eqb action (utf8 "del") then
    let kb := InlineKeyboardMarkup
      [ [ CallbackButton (utf8 "✅ Да, удалить") (utf8 "del_yes:" ++ id);
          CallbackButton (utf8 "↩️ Отмена") (utf8 "del_no:" ++ id) ] ] in
    emit (answer None false);;
    emit (reply_text (utf8 "Удалить сертификат #" ++ id ++ utf8 "? Код станет доступен снова.")
            (Some kb) None)
  else if str_eqb action (utf8 "del_no") then
    emit (answer (Some (utf8 "Ок, не удаляю.")) false)
  else if str_eqb action (utf8 "del_yes") then
    emit (answer (Some (utf8 "Удаляю…")) false);;
    resp ← api_post API_DELETE {[ utf8 "giftcert_id" := PInt gid; utf8 "confirm" := PBool true ]};
    if negb (success resp) then
      emit (reply_text (utf8 "❌ Ошибка удаления: " ++ shown_error resp) None None)
    else
      emit (reply_text (utf8 "Удалён ✅ (сертификат #" ++ id ++ utf8 "). Код стал доступен снова.") None None)
  else if str_eqb action (utf8 "pdf") then
    emit (answer (Some (utf8 "Готовлю PDF…")) false);;
    pdf ← api_download_pdf gid [];
    match pdf with
    | inr pdf_bytes =>
      emit (reply_document (utf8 "Certificate_" ++ id ++ utf8 ".pdf") pdf_bytes
              (utf8 "PDF сертификата #" ++ id))
    | inl e => emit (reply_text (utf8 "Ошибка PDF: " ++ e) None None)
    end
  else if str_eqb action (utf8 "email") then
    emit (answer (Some (utf8 "Отправляю email…")) false);;
    resp ← api_post API_RESEND {[ utf8 "giftcert_id" := PInt gid ]};
    if negb (success resp) then
      emit (reply_text (utf8 "❌ Ошибка отправки: " ++ shown_error resp) None None)
    else
      emit (reply_text (utf8 "Email отправлен ✅ (сертификат #" ++ id ++ utf8 ")") None None)
  else if str_eqb action (utf8 "use") then
    emit (answer (Some (utf8 "Отмечаю как использованный…")) false);;
    resp ← api_use gid [] (utf8 "Использован через Telegram");
    if negb (success resp) then
      emit (reply_text (utf8 "❌ Не получилось: " ++ shown_error resp) None None)
    else show_refreshed gid (utf8 "Готово ✅")
  else if str_eqb action (utf8 "annul") then
    emit (answer (Some (utf8 "Аннулирую…")) false);;
    resp ← api_post API_ANNUL {[ utf8 "giftcert_id" := PInt gid;
                                 utf8 "reason" := PStr (utf8 "Аннулирован через Telegram") ]};
    if negb (success resp) then
      emit (reply_text (utf8 "❌ Ошибка: " ++ shown_error resp) None None)
    else show_refreshed gid (utf8 "🚫 Аннулирован ✅ (сертификат #" ++ id ++ utf8 ")")
  else emit (answer (Some (utf8 "Неизвестное действие.")) true).

Definition on_callback (u : update) : M unit :=
  if negb (is_admin u) then
    match callback_query u with
    | Some _ => emit (answer (Some (utf8 "Доступ ограничен.")) true)
    | None => mret tt
    end
  else
    match callback_query u with
    | None | Some None | Some (Some []) => mret tt
    | Some (Some data) =>
      match callback_token data with
      | None => emit (answer (Some (utf8 "Некорректная команда.")) true)
      | Some (action, gid) => dispatch action gid
      end
    end.

Definition menu_router (u : update) : M unit :=
  match message u with
  | None => mret tt
  | Some t =>
    let text := strip (default [] t) in
    if str_eqb text (utf8 "➕ Создать сертификат") then new_cmd u;; mret tt
    else if str_eqb text (utf8 "📒 Журнал") then journal_cmd u
    else if str_eqb text (utf8 "🔗 Открыть Google-таблицу") && nonempty (SHEET_URL C) then sheet_cmd u
    else mret tt
  end.

End Bot.

(** ** Routing: [main] and the [ConversationHandler] *)

(** An update together with what the command filter finds in it: the bot
    command the message starts with and its arguments ([context.args]). *)
Record incoming := {
  upd : update;
  command : option (str * list str)
}.

(** The wizard session of one caller in one chat: the state the
    [ConversationHandler] keeps for the conversation ([None] when none is
    running) and the caller's [user_data]. *)
Record session := {
  conv : option state;
  data : dict
}.

Section Routing.
Context {U : Unicode} (C : config) (B : backend).

(** [filters.Regex(r"^lit$")]: the text is [lit], or [lit] and a final
    line break. *)
Definition regex_line (lit : str) (inc : incoming) : bool :=
  match message (upd inc) with
  | Some (Some t) => str_eqb t lit || str_eqb t (lit ++ nl)
  | _ => false
  end.

(** [CommandHandler(name, ...)] *)
Definition is_command (name : str) (inc : incoming) : bool :=
  match message (upd inc), command inc with
  | Some _, Some (c, _) => str_eqb c name
  | _, _ => false
  end.

(** [filters.TEXT & ~filters.COMMAND] *)
Definition plain_text (inc : incoming) : bool :=
  match message (upd inc), command inc with
  | Some (Some (_ :: _)), None => true
  | _, _ => false
  end.

Definition args (inc : incoming) : list str :=
  match command inc with
  | Some (_, a) => a
  | None => []
  end.

(** The [states] table of the conversation. *)
Definition state_handler (s : state) : update -> M next :=
  match s with
  | AMOUNT => on_amount
  | RECIPIENT_NAME => on_recipient_name
  | DONOR_FIRST => on_donor_first
  | DONOR_LAST => on_donor_last
  | RECIPIENT_EMAIL => on_recipient_email
  | ACTION => on_action C B
  end.

(** The handler the conversation picks for an update, if any: entry
    points first (in every state, [allow_reentry]), then the handler of
    the current state, then the fallbacks. *)
Definition conversation (st : option state) (inc : incoming) : option (update -> M next) :=
  if is_command (utf8 "new") inc || regex_line (utf8 "➕ Создать сертификат") inc
  then Some (new_cmd C)
  else match st with
    | None => None
    | Some s =>
      if plain_text inc then Some (state_handler s)
      else if is_command (utf8 "cancel") inc || regex_line (utf8 "❌ Отмена") inc
      then Some cancel
      else None
    end.

(** The conversation state after a handler ran: the state it returned,
    none after [END], unchanged when it raised. *)
Definition next_state (st : option state) (r : result next) : option state :=
  match r with
  | Ok (Next s) => Some s
  | Ok END => None
  | Raise _ => st
  end.

(** A handler outside the conversation leaves its state alone. *)
Definition outside (se : session) (m : M unit) : list effect * session :=
  let '(t, ud, _) := m (data se) in (t, {| conv := conv se; data := ud |}).

(** One update through the handlers registered in [main], in order.  The
    update is taken to come from the caller and the chat of the session. *)
Definition handle_update (inc : incoming) (se : session) : list effect * session :=
  let u := upd inc in
  if is_command (utf8 "start") inc then outside se (start C B u (args inc))
  else if is_command (utf8 "journal") inc then outside se (journal_cmd C B u)
  else if is_command (utf8 "sheet") inc then outside se (sheet_cmd C u)
  else if is_command (utf8 "pdf") inc then outside se (pdf_cmd C B u (args inc))
  else if is_command (utf8 "scan") inc then outside se (scan_cmd C B u (args inc))
  else match callback_query u with
    | Some _ => outside se (on_callback C B u)
    | None =>
      match conversation (conv se) inc with
      | Some h =>
        let '(t, ud, r) := h u (data se) in
        (t, {| conv := next_state (conv se) r; data := ud |})
      | None =>
        if plain_text inc then outside se (menu_router C B u)
        else ([], se)
      end
    end.

(** Several updates in a row. *)
Fixpoint handle_updates (incs : list incoming) (se : session) : list effect * session :=
  match incs with
  | [] => ([], se)
  | inc :: rest =>
    let '(t, se') := handle_update inc se in
    let '(t', se'') := handle_updates rest se' in
    (t ++ t', se'')
  end.

End Routing.

Definition idle : session := {| conv := None; data := ∅ |}.

(** The sessions a caller can bring about from the idle one, update by
    update, whatever the backend answers. *)
Inductive reachable `{U : Unicode} (C : config) : session -> Prop :=
| reachable_idle : reachable C idle
| reachable_step (se : session) (B : backend) (inc : incoming) :
    reachable C se -> reachable C (handle_update C B inc se).2.

(** ** A character table for running the handlers

    It agrees with the Unicode database on U+0000 to U+00FF (the
    whitespace U+0085 and U+00A0, the superscript digits U+00B2, U+00B3 and
    U+00B9, the capital letters U+00C0 to U+00DE) and takes every other
    character for a plain symbol, which is what the letters and pictographs
    in the constants of [bot.py] are. *)
Module Latin1.

Definition isspace (c : N) : bool :=
  ascii_isspace c || (c =? 133) || (c =? 160).

Definition isdigit (c : N) : bool :=
  ascii_isdigit c || (c =? 178) || (c =? 179) || (c =? 185).

Definition decimal (c : N) : option N :=
  if ascii_isdigit c then Some (c - 48) else None.

Definition lower_char (c : N) : N :=
  if (65 <=? c) && (c <=? 90) then c + 32
  else if (192 <=? c) && (c <=? 222) && negb (c =? 215) then c + 32
  else c.

Definition lower (s : list N) : list N := map lower_char s.

End Latin1.

Definition latin1 : Unicode.
Proof.
  refine {| isspace := Latin1.isspace; isdigit := Latin1.isdigit;
            decimal := Latin1.decimal; lower := Latin1.lower |};
    unfold Latin1.isspace, Latin1.isdigit, Latin1.decimal, ascii_isspace, ascii_isdigit.
  - intros c d H. destruct ((48 <=? c) && (c <=? 57)) eqn:E; [|discriminate].
    injection H as <-. apply andb_true_iff in E as [E1 E2].
    apply N.leb_le in E1, E2. lia.
  - intros c d H. destruct ((48 <=? c) && (c <=? 57)); [reflexivity|discriminate].
  - intros c H.
    repeat match goal with
    | |- context [?a <=? ?b] => destruct (N.leb_spec a b)
    | |- context [?a =? ?b] => destruct (N.eqb_spec a b)
    | H : context [?a <=? ?b] |- _ => destruct (N.leb_spec a b)
    | H : context [?a =? ?b] |- _ => destruct (N.eqb_spec a b)
    end; simpl in *; try reflexivity; try discriminate; lia.
  - intros c H.
    repeat match goal with
    | |- context [?a <=? ?b] => destruct (N.leb_spec a b)
    | |- context [?a =? ?b] => destruct (N.eqb_spec a b)
    end; simpl; try reflexivity; lia.
  - intros c H.
    repeat match goal with
    | |- context [?a <=? ?b] => destruct (N.leb_spec a b)
    | |- context [?a =? ?b] => destruct (N.eqb_spec a b)
    end; simpl; try reflexivity; lia.
  - reflexivity.
  - intros s H. unfold Latin1.lower. apply map_ext_Forall.
    eapply Forall_impl; [exact H|]. intros c Hc. simpl in Hc.
    unfold Latin1.lower_char, ascii_lower.
    repeat match goal with
    | |- context [?a <=? ?b] => destruct (N.leb_spec a b)
    | |- context [?a =? ?b] => destruct (N.eqb_spec a b)
    end; simpl; try reflexivity; lia.
Defined.

(** * Vocabulary of the properties *)

(** ** Traces *)

(** A call of an [api_*] function, as opposed to a message to the chat. *)
Definition is_call (e : effect) : bool :=
  match e with
  | reply_text _ _ _ | reply_document _ _ _ | answer _ _ => false
  | _ => true
  end.

(** The calls to the backend in a trace. *)
Definition calls (t : list effect) : list effect := List.filter is_call t.

(** A call of [api_create]. *)
Definition is_create (e : effect) : bool :=
  match e with call_create _ => true | _ => false end.


(** Anything but a creation call. *)
Definition no_create (e : effect) : Prop := is_create e = false.

(** Anything but a call of the delete endpoint. *)
Definition not_delete (C : config) (e : effect) : Prop :=
  forall p, e <> call_post (API_DELETE C) p.

(** [m] neither writes [user_data] nor emits anything outside [P]. *)
Definition readonly (P : effect -> Prop) {A} (m : M A) : Prop :=
  forall ud, Forall P (trace_of (m ud)) /\ data_of (m ud) = ud.

(** What [on_action] sends after a creation: the optional link to the
    spreadsheet and the closing message. *)
Definition closing (C : config) : list effect :=
  (if nonempty (SHEET_URL C)
   then [reply_text (utf8 "Журнал:")
           (Some (InlineKeyboardMarkup
              [ [ UrlButton (utf8 "📒 Журнал (Google Таблица)") (SHEET_URL C) ] ])) None]
   else []) ++
  [reply_text (utf8 "Готово.") (Some ReplyKeyboardRemove) None].

(** ** Numbers in text *)

(** A non-empty string of decimal digits ([s.isdecimal()]). *)
Definition str_isdecimal `{U : Unicode} (s : str) : bool :=
  nonempty s && forallb (fun c => bool_decide (is_Some (decimal c))) s.

(** The number a string of decimal digits denotes, read onto [acc]. *)
Fixpoint uint_value (d : Decimal.uint) (acc : N) : N :=
  match d with
  | Decimal.Nil => acc
  | Decimal.D0 r => uint_value r (10 * acc + 0)
  | Decimal.D1 r => uint_value r (10 * acc + 1)
  | Decimal.D2 r => uint_value r (10 * acc + 2)
  | Decimal.D3 r => uint_value r (10 * acc + 3)
  | Decimal.D4 r => uint_value r (10 * acc + 4)
  | Decimal.D5 r => uint_value r (10 * acc + 5)
  | Decimal.D6 r => uint_value r (10 * acc + 6)
  | Decimal.D7 r => uint_value r (10 * acc + 7)
  | Decimal.D8 r => uint_value r (10 * acc + 8)
  | Decimal.D9 r => uint_value r (10 * acc + 9)
  end.

(** ** The wizard's invariant *)

(** Once set, the amount is a positive integer. *)
Definition amount_ok (ud : dict) : Prop :=
  forall v, ud !! utf8 "amount" = Some v -> exists n, v = PInt n /\ (0 < n)%Z.

(** Once set, the donor's names are strings. *)
Definition names_ok (ud : dict) : Prop :=
  forall v, ud !! utf8 "firstname" = Some v \/ ud !! utf8 "lastname" = Some v ->
            exists s, v = PStr s.

(** The states that lie behind the amount step. *)
Definition past_amount (st : option state) : bool :=
  match st with
  | None | Some AMOUNT => false
  | Some _ => true
  end.

Definition wizard_inv (se : session) : Prop :=
  amount_ok (data se) /\ names_ok (data se) /\
  (past_amount (conv se) = true -> is_Some (data se !! utf8 "amount")).

(** A creation call carries the positive amount that [ud] holds. *)
Definition carries_amount (ud : dict) (t : list effect) : Prop :=
  forall p, In (call_create p) t ->
    exists n, (0 < n)%Z /\ ud !! utf8 "amount" = Some (PInt n)
              /\ p !! utf8 "amount" = Some (PInt n).

(** A conversation handler keeps the invariant when run in state [st]. *)
Definition handler_ok `{U : Unicode} (st : option state) (h : update -> M next) : Prop :=
  forall u ud, is_Some (message u) ->
    wizard_inv {| conv := st; data := ud |} ->
    wizard_inv {| conv := next_state st (outcome_of (h u ud)); data := data_of (h u ud) |}
    /\ carries_amount ud (trace_of (h u ud)).

(** ** Markup *)

(** How a client that renders [parse_mode="HTML"] reads a text: a [<]
    opens a tag, the next [>] closes it, what stands between is its name.
    [scan st s] gives the state after [s] ([Some name] inside a tag, with
    the name read so far reversed) and the tags closed on the way. *)
Fixpoint scan (st : option str) (s : str) : option str * list str :=
  match s with
  | [] => (st, [])
  | c :: r =>
    match st with
    | None => if c =? 60 then scan (Some []) r else scan None r
    | Some name =>
      if c =? 62
      then let '(st', ts) := scan None r in (st', rev name :: ts)
      else scan (Some (c :: name)) r
    end
  end.

Definition tags (s : str) : list str := (scan None s).2.

Definition count (c : N) (s : str) : nat := length (List.filter (N.eqb c) s).

(** The tags of the card's template. *)
Definition template_tag (t : str) : bool :=
  str_eqb t (utf8 "b") || str_eqb t (utf8 "/b")
  || str_eqb t (utf8 "code") || str_eqb t (utf8 "/code").

(** A text whose every angle bracket delimits a tag of the template. *)
Definition tidy (s : str) : Prop :=
  (scan None s).1 = None
  /\ forallb template_tag (tags s) = true
  /\ count 60 s = length (tags s)
  /\ count 62 s = length (tags s).

(** No angle bracket at all. *)
Definition plain (s : str) : Prop := Forall (fun c => c <> 60 /\ c <> 62) s.

(** ** Sample data *)

Module Sample.

(** One operator on the allow-list, no spreadsheet configured. *)
Definition shop : config :=
  {| TG_ADMIN_IDS := {[ 1001%Z ]};
     OC_BASE_URL := utf8 "https://shop.example";
     SHEET_URL := [] |}.

(** A message from user [uid]. *)
Definition says (uid : Z) (text : str) : update :=
  {| effective_user := Some uid; message := Some (Some text); callback_query := None |}.

Definition typed (uid : Z) (text : str) : incoming :=
  {| upd := says uid text; command := None |}.

Definition sent_command (uid : Z) (name : str) (arguments : list str) : incoming :=
  {| upd := says uid (utf8 "/" ++ name); command := Some (name, arguments) |}.

Definition refused : response :=
  {| fields := {[ utf8 "success" := PBool false;
                  utf8 "error" := PStr (utf8 "Network error: timeout") ]};
     cert_of := None; rows_of := None |}.

Definition created : response :=
  {| fields := {[ utf8 "success" := PBool true; utf8 "giftcert_id" := PInt 17;
                  utf8 "code" := PStr (utf8 "004521"); utf8 "amount" := PInt 70 ]};
     cert_of := None; rows_of := None |}.

(** A backend that is down. *)
Definition down : backend :=
  {| backend_create := fun _ => refused;
     backend_list := fun _ => refused;
     backend_post := fun _ _ => refused;
     backend_get := fun _ _ => refused;
     backend_use := fun _ _ _ => refused;
     backend_pdf := fun _ _ => inl (utf8 "Network error: timeout") |}.

(** A backend that creates certificates and fails to render them. *)
Definition no_pdf : backend :=
  {| backend_create := fun _ => created;
     backend_list := fun _ => refused;
     backend_post := fun _ _ => refused;
     backend_get := fun _ _ => refused;
     backend_use := fun _ _ _ => refused;
     backend_pdf := fun _ _ => inl (utf8 "PDF download failed: 500 ") |}.

(** What the wizard holds when the operator entered 70 and skipped the
    four optional steps. *)
Definition collected : dict :=
  {[ utf8 "amount" := PInt 70; utf8 "recipient_name" := PStr [];
     utf8 "firstname" := PStr []; utf8 "lastname" := PStr [];
     utf8 "recipient_email" := PStr [] ]}.

(** The operator has entered the amount 70. *)
Definition after_amount : session :=
  (handle_updates (U := latin1) shop down
     [ sent_command 1001 (utf8 "new") []; typed 1001 (utf8 "70") ] idle).2.

End Sample.

(** * Properties *)

Arguments utf8 : simpl never.

(** ** Identity gate *)

(** C9: [is_admin] is a total function of the configured set and the
    caller's identity (0 when the update has no user): it answers true when
    the set of privileged identities is empty or contains the caller, and
    false in every other case. *)
Theorem is_admin_iff (C : config) (u : update) :
  is_admin C u = true <->
  TG_ADMIN_IDS C = ∅ \/ default 0%Z (effective_user u) ∈ TG_ADMIN_IDS C.
Proof.
  unfold is_admin. rewrite orb_true_iff, !bool_decide_eq_true.
  destruct (effective_user u); reflexivity.
Qed.

(** ** Scan router *)

Section Scan.
Context {U : Unicode} (C : config).


End Scan.

(** ** Creation wizard *)

(** Unfolds the monad operations of a handler run. *)
Ltac run :=
  cbv [mbind mret M_bind M_ret result_bind result_ret emit lift
       user_data user_data_set user_data_clear trace_of data_of outcome_of];
  cbn [app fst snd].

Section StringFacts.
Context {U : Unicode}.

Lemma lstrip_by_head (p : N -> bool) (s : str) :
  match s with c :: _ => p c = false | [] => True end -> lstrip_by p s = s.
Proof. destruct s as [|c r]; [done|]. simpl. by intros ->. Qed.

Lemma strip_by_none (p : N -> bool) (s : str) :
  Forall (fun c => p c = false) s -> strip_by p s = s.
Proof.
  intros H. unfold strip_by.
  rewrite (lstrip_by_head p s) by (destruct H; done).
  rewrite lstrip_by_head; [apply rev_involutive|].
  apply Forall_rev in H. by destruct H.
Qed.

Lemma decimal_not_int_isspace c d : decimal c = Some d -> int_isspace c = false.
Proof.
  intros H. unfold int_isspace. destruct (N.ltb_spec c 128) as [Hlt|Hge].
  - rewrite decimal_ascii in H by done. unfold ascii_isdigit in H.
    destruct (N.leb_spec 48 c), (N.leb_spec c 57); try discriminate.
    destruct (N.leb_spec 9 c), (N.leb_spec c 13), (N.eqb_spec c 32); simpl; try done; lia.
  - apply isdigit_not_isspace. by eapply decimal_isdigit.
Qed.

Lemma isdecimal_Forall (s : str) :
  str_isdecimal s = true -> s <> [] /\ Forall (fun c => is_Some (decimal c)) s.
Proof.
  unfold str_isdecimal. intros [Hn Ha]%andb_true_iff. split.
  - by destruct s.
  - apply Forall_forall. intros c Hc. rewrite forallb_forall in Ha.
    apply list_elem_of_In in Hc. apply Ha in Hc. by apply bool_decide_eq_true in Hc.
Qed.

Lemma isdecimal_isdigit (s : str) : str_isdecimal s = true -> str_isdigit s = true.
Proof.
  intros [Hn Ha]%isdecimal_Forall. destruct s as [|c r]; [done|].
  unfold str_isdigit. apply forallb_forall. intros x Hx%list_elem_of_In.
  rewrite Forall_forall in Ha. destruct (Ha x Hx) as [d Hd]. by eapply decimal_isdigit.
Qed.

Lemma isdigit_strip (s : str) : str_isdigit s = true -> strip s = s.
Proof.
  intros H. apply strip_by_none. destruct s as [|c r]; [done|].
  unfold str_isdigit in H. rewrite forallb_forall in H.
  apply Forall_forall. intros x Hx%list_elem_of_In. by apply isdigit_not_isspace, H.
Qed.

Lemma int_digits_decimal (s : str) (acc : N) (b : bool) :
  Forall (fun c => is_Some (decimal c)) s -> s <> [] \/ b = true ->
  exists n, int_digits s acc b = Some n.
Proof.
  intros H. revert acc b. induction H as [|c r [d Hd] Hr IH]; intros acc b Hb.
  - destruct Hb as [? | ->]; [done|]. by exists acc.
  - simpl. rewrite Hd. apply IH. by right.
Qed.

(** [int()] reads every string of decimal digits, as a natural number. *)
Lemma int_of_isdecimal (s : str) :
  str_isdecimal s = true -> exists n : N, int_of_str s = Some (Z.of_N n).
Proof.
  intros [Hn Ha]%isdecimal_Forall. unfold int_of_str.
  rewrite strip_by_none.
  2:{ eapply Forall_impl; [exact Ha|]. intros c [d Hd]. by eapply decimal_not_int_isspace. }
  destruct (int_digits_decimal s 0 false Ha) as [n Hdig]; [by left|].
  exists n. destruct s as [|c r]; [done|].
  apply Forall_cons in Ha as [[d Hd] _].
  assert (c <> 43 /\ c <> 45) as [H43 H45].
  { split; intros ->; rewrite decimal_ascii in Hd by done; discriminate. }
  cbv zeta. destruct (N.eqb_spec c 43), (N.eqb_spec c 45); try done.
  by rewrite Hdig.
Qed.

End StringFacts.

Section Wizard.
Context {U : Unicode}.

(** C4, as amended: with [s] the text of the message stripped of
    surrounding whitespace, a non-empty string of decimal digits [s] is
    read by [int()] as some [n]; when [n > 0] the wizard stores [n] under
    [amount] and moves on to the recipient name, when [n = 0] it asks
    again.  When [s] is empty or holds a character that is not a digit it
    asks again as well, stays in [AMOUNT] and leaves [user_data] as it
    was.  (Digits that are not decimal are left out of the statement.) *)
Theorem on_amount_cases (u : update) (ud : dict) (t : option str) :
  message u = Some t ->
  let s := strip (default [] t) in
  let again := ([reply_text (utf8 "Нужно число > 0. Пример: 70") None None],
                ud, Ok (Next AMOUNT)) in
  if str_isdecimal s then
    exists n : N, int_of_str s = Some (Z.of_N n) /\
      on_amount u ud =
        if 0 <? n
        then ([reply_text (utf8 "Имя получателя (опционально). Или напишите '-' чтобы пропустить.") None None],
              <[utf8 "amount" := PInt (Z.of_N n)]> ud, Ok (Next RECIPIENT_NAME))
        else again
  else if str_isdigit s then True
  else on_amount u ud = again.
Proof.
  intros Hm s again. subst again.
  unfold on_amount, stripped_text, reply. rewrite Hm. run. fold s.
  destruct (str_isdecimal s) eqn:Hdec.
  - destruct (int_of_isdecimal s Hdec) as [n Hn]. exists n. split; [done|].
    rewrite (isdecimal_isdigit s Hdec). cbn [negb]. unfold py_int. rewrite Hn.
    destruct (N.ltb_spec 0 n) as [Hpos|Hz].
    + destruct (Z.leb_spec (Z.of_N n) 0); [lia|done].
    + destruct (Z.leb_spec (Z.of_N n) 0); [done|lia].
  - destruct (str_isdigit s); done.
Qed.

Lemma payload_recipient_email (ud : dict) (b : bool) :
  get (creation_payload ud b) (utf8 "recipient_email")
  = get_or ud (utf8 "recipient_email") (PStr []).
Proof. reflexivity. Qed.

Lemma payload_amount (ud : dict) (b : bool) :
  get (creation_payload ud b) (utf8 "amount") = get_or ud (utf8 "amount") (PInt 0).
Proof. reflexivity. Qed.

Section Delivery.
Context (C : config).

(** C8: when the recipient email collected so far is the empty string
    (or was never set), choosing the email delivery makes no backend
    call: the wizard sends the corrective message and stays in
    [ACTION], with [user_data] untouched. *)
Theorem email_choice_without_email (B : backend) (u : update) (ud : dict)
    (t : option str) :
  message u = Some t ->
  strip (default [] t) = utf8 "✉️ На email" ->
  get_or ud (utf8 "recipient_email") (PStr []) = PStr [] ->
  on_action C B u ud =
    ([reply_text (utf8 "Вы выбрали email, но email не указан. Введите email или выберите PDF в Telegram.") None None],
     ud, Ok (Next ACTION)).
Proof.
  intros Hm Ht He. unfold on_action, stripped_text, reply. rewrite Hm. run.
  rewrite Ht.
  change (str_eqb (utf8 "✉️ На email") (utf8 "❌ Отмена")) with false.
  change (str_eqb (utf8 "✉️ На email") (utf8 "✉️ На email")) with true.
  run. by rewrite payload_recipient_email, He.
Qed.

(** The run of [on_action] once the choice is accepted. *)
Lemma on_action_submits (B : backend) (u : update) (ud : dict) (t : option str) :
  message u = Some t ->
  let text := strip (default [] t) in
  let send_email := str_eqb text (utf8 "✉️ На email") in
  let payload := creation_payload ud send_email in
  let resp := backend_create B payload in
  str_eqb text (utf8 "❌ Отмена") = false ->
  send_email && negb (truthy (get_or ud (utf8 "recipient_email") (PStr []))) = false ->
  on_action C B u ud =
    if negb (success resp) then
      ([reply_text (utf8 "Генерирую сертификат…") None None;
        call_create payload;
        reply_text (utf8 "Ошибка API: " ++ py_str (get (fields resp) (utf8 "error")) ++ nl
                    ++ take 500 (py_str (get_or (fields resp) (utf8 "raw") (PStr [])))) None None],
       ud, Ok END)
    else match py_int (por (get (fields resp) (utf8 "giftcert_id")) (PInt 0)) with
      | Raise e =>
        ([reply_text (utf8 "Генерирую сертификат…") None None; call_create payload],
         ud, Raise e)
      | Ok gid =>
        ([reply_text (utf8 "Генерирую сертификат…") None None;
          call_create payload;
          call_download_pdf gid [];
          match backend_pdf B gid [] with
          | inr pdf_bytes =>
            let code := get_or (fields resp) (utf8 "code") (PStr []) in
            reply_document
              (utf8 "Certificate_" ++ py_str (por code (PInt gid)) ++ utf8 ".pdf")
              pdf_bytes
              (utf8 "Сертификат создан ✅" ++ nl ++ utf8 "Код: " ++ py_str code ++ nl
               ++ utf8 "Сумма: "
               ++ py_str (get_or (fields resp) (utf8 "amount") (get payload (utf8 "amount")))
               ++ utf8 " BYN" ++ nl ++ utf8 "Источник: telegram")
          | inl e => reply_text (utf8 "Создан, но не смог отправить PDF: " ++ e) None None
          end] ++ closing C,
         ud, Ok END)
      end.
Proof.
  intros Hm text send_email payload resp Hc He.
  unfold on_action, stripped_text, reply, reply_doc, sheet_link, closing.
  rewrite Hm. run. fold text. rewrite Hc. run. fold send_email.
  rewrite payload_recipient_email, He. fold payload.
  cbv [api_create]. run. fold resp.
  destruct (success resp); cbn [negb]; [|done].
  destruct (py_int _) as [gid|e]; [|done].
  cbv [api_download_pdf]. run.
  destruct (backend_pdf B gid []) as [e|bytes], (nonempty (SHEET_URL C));
    unfold reply; rewrite ?Hm; run; done.
Qed.



End Delivery.

End Wizard.

(** ** Handlers that only talk *)

Section Readonly.
Context (P : effect -> Prop).

Lemma readonly_ret {A} (a : A) : readonly P (mret a).
Proof. intros ud. by split. Qed.

Lemma readonly_lift {A} (r : result A) : readonly P (lift r).
Proof. intros ud. by split. Qed.

Lemma readonly_emit (e : effect) : P e -> readonly P (emit e).
Proof. intros He ud. split; [by repeat constructor|done]. Qed.

Lemma readonly_user_data : readonly P user_data.
Proof. intros ud. by split. Qed.

Lemma readonly_bind {A B} (m : M A) (f : A -> M B) :
  readonly P m -> (forall a, readonly P (f a)) -> readonly P (m ≫= f).
Proof.
  intros Hm Hf ud. specialize (Hm ud). run. unfold trace_of, data_of in Hm.
  destruct (m ud) as [[t ud'] [a|e]]; simpl in Hm; destruct Hm as [Ht ->].
  - specialize (Hf a ud). unfold trace_of, data_of in Hf.
    destruct (f a ud) as [[t' ud''] r]. simpl in *. destruct Hf as [Ht' ->].
    split; [by apply Forall_app|done].
  - by split.
Qed.

End Readonly.

Create HintDb readonly.
#[export] Hint Resolve readonly_ret readonly_lift readonly_user_data : readonly.

(** Decomposes a [readonly] goal along the structure of the handler. *)
Ltac readonly_step :=
  match goal with
  | |- readonly _ (mbind _ _) => apply readonly_bind; [|intros]
  | |- readonly _ (emit _) => apply readonly_emit
  | |- readonly _ (mret _) => apply readonly_ret
  | |- readonly _ (lift _) => apply readonly_lift
  | |- readonly _ user_data => apply readonly_user_data
  | |- readonly _ (if ?b then _ else _) => destruct b
  | |- readonly _ (match ?x with _ => _ end) => destruct x
  | |- readonly _ (let '(_, _) := ?x in _) => destruct x
  end.

Section Talkers.
Context {U : Unicode} (C : config) (B : backend).

Lemma reply_readonly u text mk pm : readonly no_create (reply u text mk pm).
Proof. unfold reply. repeat readonly_step. done. Qed.

Lemma reply_doc_readonly u name doc cap : readonly no_create (reply_doc u name doc cap).
Proof. unfold reply_doc. repeat readonly_step. done. Qed.

Hint Resolve reply_readonly reply_doc_readonly : readonly.
Hint Extern 1 (no_create _) => reflexivity : readonly.

Lemma show_cert_by_code_readonly u code : readonly no_create (show_cert_by_code B u code).
Proof.
  unfold show_cert_by_code, api_get. repeat (readonly_step; auto with readonly).
Qed.

Lemma start_readonly u a : readonly no_create (start C B u a).
Proof.
  unfold start, start_menu.
  repeat (readonly_step; auto using show_cert_by_code_readonly with readonly).
Qed.

Lemma sheet_cmd_readonly u : readonly no_create (sheet_cmd C u).
Proof. unfold sheet_cmd. repeat (readonly_step; auto with readonly). Qed.

Lemma scan_cmd_readonly u a : readonly no_create (scan_cmd C B u a).
Proof.
  unfold scan_cmd.
  repeat (readonly_step; auto using show_cert_by_code_readonly with readonly).
Qed.

Lemma pdf_cmd_readonly u a : readonly no_create (pdf_cmd C B u a).
Proof.
  unfold pdf_cmd, api_download_pdf. repeat (readonly_step; auto with readonly).
Qed.

Lemma journal_rows_readonly u rows : readonly no_create (journal_rows u rows).
Proof.
  induction rows as [|r rest IH]; simpl; repeat (readonly_step; auto with readonly).
Qed.

Lemma journal_cmd_readonly u : readonly no_create (journal_cmd C B u).
Proof.
  unfold journal_cmd, api_list, sheet_link.
  repeat (readonly_step; auto using journal_rows_readonly with readonly).
Qed.

Lemma fetch_cert_by_id_readonly gid : readonly no_create (fetch_cert_by_id B gid).
Proof. unfold fetch_cert_by_id, api_get. repeat (readonly_step; auto with readonly). Qed.

Lemma dispatch_readonly action gid : readonly no_create (dispatch C B action gid).
Proof.
  unfold dispatch, show_refreshed, api_post, api_use, api_download_pdf.
  repeat (readonly_step; auto using fetch_cert_by_id_readonly with readonly).
Qed.

Lemma on_callback_readonly u : readonly no_create (on_callback C B u).
Proof.
  unfold on_callback.
  repeat (readonly_step; auto using dispatch_readonly with readonly).
Qed.

End Talkers.

(** ** The wizard's invariant *)

Ltac key_neq := let H := fresh in intros H; vm_compute in H; discriminate H.

Section Invariant.
Context {U : Unicode} (C : config).

Lemma wizard_inv_empty (st : option state) :
  past_amount st = false -> wizard_inv {| conv := st; data := ∅ |}.
Proof.
  intros Hst. repeat split; simpl.
  - intros v Hv. by rewrite lookup_empty in Hv.
  - intros v [Hv|Hv]; by rewrite lookup_empty in Hv.
  - by rewrite Hst.
Qed.

Lemma no_create_carries (ud : dict) (t : list effect) :
  Forall no_create t -> carries_amount ud t.
Proof.
  intros H p Hp. rewrite Forall_forall in H.
  apply list_elem_of_In, H in Hp. discriminate Hp.
Qed.

Lemma new_cmd_run (u : update) (ud : dict) :
  is_Some (message u) ->
  new_cmd C u ud =
    if is_admin C u
    then ([reply_text (utf8 "Введите сумму (BYN), только цифры. Например: 70" ++ nl ++ nl
                       ++ utf8 "/cancel — отмена") (Some ReplyKeyboardRemove) None],
          ∅, Ok (Next AMOUNT))
    else ([reply_text (utf8 "Доступ ограничен.") None None], ud, Ok END).
Proof.
  intros [t Hm]. unfold new_cmd, reply. rewrite Hm. by destruct (is_admin C u).
Qed.

Lemma cancel_run (u : update) (ud : dict) :
  is_Some (message u) ->
  cancel u ud = ([reply_text (utf8 "Отменено.") (Some ReplyKeyboardRemove) None], ∅, Ok END).
Proof. intros [t Hm]. unfold cancel. by rewrite Hm. Qed.

Lemma new_cmd_ok (st : option state) : handler_ok st (new_cmd C).
Proof.
  intros u ud Hm Hinv. rewrite (new_cmd_run u ud Hm).
  destruct (is_admin C u); run; simpl.
  - split; [by apply wizard_inv_empty|]. apply no_create_carries. by repeat constructor.
  - split; [|apply no_create_carries; by repeat constructor].
    destruct Hinv as (Ha & Hn & _). by repeat split.
Qed.

Lemma cancel_ok (st : option state) : handler_ok st cancel.
Proof.
  intros u ud Hm Hinv. rewrite (cancel_run u ud Hm). run. simpl.
  split; [by apply wizard_inv_empty|]. apply no_create_carries. by repeat constructor.
Qed.

(** Writing a string under a key other than [amount] keeps the invariant
    of a state behind the amount step, provided the amount is there. *)
Lemma wizard_inv_set (st st' : option state) (ud : dict) (k s : str) :
  k <> utf8 "amount" ->
  past_amount st = true ->
  wizard_inv {| conv := st; data := ud |} ->
  wizard_inv {| conv := st'; data := <[k := PStr s]> ud |}.
Proof.
  intros Hk Hst (Ha & Hn & Hp). simpl in *. repeat split; simpl.
  - intros v. rewrite lookup_insert_ne by done. apply Ha.
  - intros v [Hv|Hv]; rewrite lookup_insert in Hv; case_decide;
      try (injection Hv as <-; by eexists); apply Hn; auto.
  - intros _. rewrite lookup_insert_ne by done. by apply Hp.
Qed.

Lemma on_recipient_name_run (u : update) (ud : dict) (t : option str) :
  message u = Some t ->
  on_recipient_name u ud =
    ([reply_text (utf8 "Имя дарителя (опционально). Или '-' чтобы пропустить.") None None],
     <[utf8 "recipient_name" := PStr (skip_dash (strip (default [] t)))]> ud,
     Ok (Next DONOR_FIRST)).
Proof. intros Hm. unfold on_recipient_name, stripped_text, reply. by rewrite Hm. Qed.

Lemma on_donor_first_run (u : update) (ud : dict) (t : option str) :
  message u = Some t ->
  on_donor_first u ud =
    ([reply_text (utf8 "Фамилия дарителя (опционально). Или '-' чтобы пропустить.") None None],
     <[utf8 "firstname" := PStr (skip_dash (strip (default [] t)))]> ud,
     Ok (Next DONOR_LAST)).
Proof. intros Hm. unfold on_donor_first, stripped_text, reply. by rewrite Hm. Qed.

Lemma on_donor_last_run (u : update) (ud : dict) (t : option str) :
  message u = Some t ->
  on_donor_last u ud =
    ([reply_text (utf8 "Email получателя (опционально). Или '-' чтобы пропустить.") None None],
     <[utf8 "lastname" := PStr (skip_dash (strip (default [] t)))]> ud,
     Ok (Next RECIPIENT_EMAIL)).
Proof. intros Hm. unfold on_donor_last, stripped_text, reply. by rewrite Hm. Qed.

Lemma names_ok_operand (ud : dict) (k : str) :
  names_ok ud -> k = utf8 "firstname" \/ k = utf8 "lastname" ->
  exists s, str_operand (get_or ud k (PStr [])) = Ok s.
Proof.
  intros Hn Hk. unfold get_or. destruct (ud !! k) as [v|] eqn:E; simpl; [|by eexists].
  destruct (Hn v) as [s ->]; [destruct Hk as [-> | ->]; auto|]. by eexists.
Qed.

Lemma on_recipient_email_run (u : update) (ud : dict) (t : option str) :
  message u = Some t -> names_ok ud ->
  exists summary,
    on_recipient_email u ud =
      ([reply_text summary
          (Some (ReplyKeyboardMarkup
             [ [ utf8 "📄 PDF в Telegram"; utf8 "✉️ На email" ]; [ utf8 "❌ Отмена" ] ]))
          None],
       <[utf8 "recipient_email" := PStr (skip_dash (strip (default [] t)))]> ud,
       Ok (Next ACTION)).
Proof.
  intros Hm Hn. unfold on_recipient_email, stripped_text, reply. rewrite Hm. run.
  set (ud' := <[utf8 "recipient_email" := _]> ud).
  assert (Hn' : names_ok ud').
  { intros v [Hv|Hv]; subst ud'; rewrite lookup_insert_ne in Hv by key_neq; apply Hn; auto. }
  destruct (names_ok_operand ud' (utf8 "firstname") Hn') as [fn ->]; [auto|].
  destruct (names_ok_operand ud' (utf8 "lastname") Hn') as [ln ->]; [auto|].
  by eexists.
Qed.

Lemma on_amount_shape (u : update) (ud : dict) :
  is_Some (message u) ->
  exists tr, Forall no_create tr /\
    ((exists r, (r = Ok (Next AMOUNT) \/ exists e, r = Raise e) /\ on_amount u ud = (tr, ud, r))
     \/ (exists n, (0 < n)%Z /\
           on_amount u ud = (tr, <[utf8 "amount" := PInt n]> ud, Ok (Next RECIPIENT_NAME)))).
Proof.
  intros [t Hm]. unfold on_amount, stripped_text, reply. rewrite Hm. run.
  destruct (str_isdigit _); cbn [negb].
  - destruct (py_int _) as [n|e].
    + destruct (Z.leb_spec n 0).
      * eexists. split; [|left; eexists; split; [by left|done]]. by repeat constructor.
      * eexists. split; [|right; exists n; split; [lia|done]]. by repeat constructor.
    + eexists. split; [|left; eexists; split; [right; by eexists|done]]. constructor.
  - eexists. split; [|left; eexists; split; [by left|done]]. by repeat constructor.
Qed.

Lemma on_amount_ok : handler_ok (Some AMOUNT) on_amount.
Proof.
  intros u ud Hm Hinv.
  destruct (on_amount_shape u ud Hm) as (tr & Htr & [(r & Hr & ->)|(n & Hn & ->)]); run; simpl.
  - split; [|by apply no_create_carries].
    destruct Hinv as (Ha & Hnm & _).
    destruct Hr as [-> | [e ->]]; by repeat split.
  - split; [|by apply no_create_carries].
    destruct Hinv as (Ha & Hnm & _). repeat split; simpl.
    + intros v. rewrite lookup_insert_eq. intros [= <-]. by exists n.
    + intros v [Hv|Hv]; rewrite lookup_insert_ne in Hv by key_neq; apply Hnm; auto.
    + intros _. rewrite lookup_insert_eq. by eexists.
Qed.

Lemma on_recipient_name_ok : handler_ok (Some RECIPIENT_NAME) on_recipient_name.
Proof.
  intros u ud [t Hm] Hinv. rewrite (on_recipient_name_run u ud t Hm). run. simpl.
  split; [|apply no_create_carries; by repeat constructor].
  eapply wizard_inv_set; [key_neq| |exact Hinv]. done.
Qed.

Lemma on_donor_first_ok : handler_ok (Some DONOR_FIRST) on_donor_first.
Proof.
  intros u ud [t Hm] Hinv. rewrite (on_donor_first_run u ud t Hm). run. simpl.
  split; [|apply no_create_carries; by repeat constructor].
  eapply wizard_inv_set; [key_neq| |exact Hinv]. done.
Qed.

Lemma on_donor_last_ok : handler_ok (Some DONOR_LAST) on_donor_last.
Proof.
  intros u ud [t Hm] Hinv. rewrite (on_donor_last_run u ud t Hm). run. simpl.
  split; [|apply no_create_carries; by repeat constructor].
  eapply wizard_inv_set; [key_neq| |exact Hinv]. done.
Qed.

Lemma on_recipient_email_ok : handler_ok (Some RECIPIENT_EMAIL) on_recipient_email.
Proof.
  intros u ud [t Hm] Hinv.
  destruct (on_recipient_email_run u ud t Hm) as [summary ->]; [apply Hinv|]. run. simpl.
  split; [|apply no_create_carries; by repeat constructor].
  eapply wizard_inv_set; [key_neq| |exact Hinv]. done.
Qed.

Lemma creation_payload_amount (ud : dict) (b : bool) :
  creation_payload ud b !! utf8 "amount" = Some (get_or ud (utf8 "amount") (PInt 0)).
Proof. reflexivity. Qed.

Lemma on_action_ok (B : backend) : handler_ok (Some ACTION) (on_action C B).
Proof.
  intros u ud [t Hm] Hinv.
  set (text := strip (default [] t)).
  destruct (str_eqb text (utf8 "❌ Отмена")) eqn:Hc.
  { assert (on_action C B u ud = cancel u ud) as ->.
    { unfold on_action, stripped_text. rewrite Hm. run. fold text. rewrite Hc.
      by destruct (cancel u ud) as [[? ?] ?]. }
    apply cancel_ok; [by eexists|done]. }
  destruct (str_eqb text (utf8 "✉️ На email")
            && negb (truthy (get_or ud (utf8 "recipient_email") (PStr [])))) eqn:He.
  { assert (on_action C B u ud =
      ([reply_text (utf8 "Вы выбрали email, но email не указан. Введите email или выберите PDF в Telegram.") None None],
       ud, Ok (Next ACTION))) as ->.
    { unfold on_action, stripped_text, reply. rewrite Hm. run. fold text. rewrite Hc. run.
      by rewrite payload_recipient_email, He. }
    run. simpl. split; [done|]. apply no_create_carries. by repeat constructor. }
  pose proof (on_action_submits C B u ud t Hm Hc He) as H. cbv zeta in H. fold text in H.
  assert (Hcarry : forall tr, Forall no_create tr ->
            carries_amount ud (reply_text (utf8 "Генерирую сертификат…") None None
              :: call_create (creation_payload ud (str_eqb text (utf8 "✉️ На email"))) :: tr)).
  { intros tr Htr p [Hp|[Hp|Hp]]; [discriminate Hp| |].
    - injection Hp as <-. destruct Hinv as (Ha & _ & Hp). simpl in *.
      destruct (Hp eq_refl) as [v Hv]. destruct (Ha v Hv) as (n & -> & Hn).
      exists n. repeat split; [done..|].
      rewrite creation_payload_amount. unfold get_or. by rewrite Hv.
    - rewrite Forall_forall in Htr. apply list_elem_of_In, Htr in Hp. discriminate Hp. }
  rewrite H. clear H.
  destruct (success _); cbn [negb].
  - destruct (py_int _) as [gid|e]; run; simpl.
    + split; [destruct Hinv as (? & ? & ?); by repeat split|].
      apply Hcarry. unfold closing.
      destruct (backend_pdf B gid []), (nonempty (SHEET_URL C)); by repeat constructor.
    + split; [done|]. by apply Hcarry.
  - run. simpl. split; [destruct Hinv as (? & ? & ?); by repeat split|].
    apply Hcarry. by repeat constructor.
Qed.

Lemma outside_ok (se : session) (m : M unit) :
  readonly no_create m -> wizard_inv se ->
  wizard_inv (outside se m).2 /\ carries_amount (data se) (outside se m).1.
Proof.
  intros Hm Hinv. specialize (Hm (data se)). unfold outside, trace_of, data_of in *.
  destruct (m (data se)) as [[t ud] r]. simpl in *. destruct Hm as [Ht ->].
  split; [by destruct se|by apply no_create_carries].
Qed.

Lemma menu_router_ok (B : backend) (se : session) (u : update) :
  conv se = None -> wizard_inv se ->
  wizard_inv (outside se (menu_router C B u)).2
  /\ carries_amount (data se) (outside se (menu_router C B u)).1.
Proof.
  intros Hc Hinv. unfold menu_router.
  destruct (message u) as [t|] eqn:Hm; [|apply outside_ok; [apply readonly_ret|done]].
  destruct (str_eqb _ (utf8 "➕ Создать сертификат")).
  - unfold outside. run. rewrite new_cmd_run by (by eexists).
    destruct se as [st ud]. simpl in *. subst st.
    destruct (is_admin C u); simpl.
    + split; [by apply wizard_inv_empty|]. apply no_create_carries. by repeat constructor.
    + split; [done|]. apply no_create_carries. by repeat constructor.
  - apply outside_ok; [|done].
    repeat (readonly_step;
            auto using journal_cmd_readonly, sheet_cmd_readonly with readonly).
Qed.

Lemma is_command_message (name : str) (inc : incoming) :
  is_command name inc = true -> is_Some (message (upd inc)).
Proof. unfold is_command. destruct (message (upd inc)); [by eexists|done]. Qed.

Lemma regex_line_message (lit : str) (inc : incoming) :
  regex_line lit inc = true -> is_Some (message (upd inc)).
Proof. unfold regex_line. destruct (message (upd inc)); [by eexists|done]. Qed.

Lemma plain_text_message (inc : incoming) :
  plain_text inc = true -> is_Some (message (upd inc)).
Proof. unfold plain_text. destruct (message (upd inc)); [by eexists|done]. Qed.

Lemma state_handler_ok (B : backend) (s : state) : handler_ok (Some s) (state_handler C B s).
Proof.
  destruct s; simpl;
    auto using on_amount_ok, on_recipient_name_ok, on_donor_first_ok, on_donor_last_ok,
               on_recipient_email_ok, on_action_ok.
Qed.

Lemma conversation_ok (B : backend) (st : option state) (inc : incoming)
    (h : update -> M next) :
  conversation C B st inc = Some h -> is_Some (message (upd inc)) /\ handler_ok st h.
Proof.
  unfold conversation.
  destruct (is_command (utf8 "new") inc || regex_line _ inc) eqn:He.
  { intros [= <-]. split; [|apply new_cmd_ok].
    apply orb_true_iff in He as [He|He];
      eauto using is_command_message, regex_line_message. }
  destruct st as [s|]; [|done].
  destruct (plain_text inc) eqn:Hp.
  { intros [= <-]. split; [by apply plain_text_message|apply state_handler_ok]. }
  destruct (is_command (utf8 "cancel") inc || regex_line _ inc) eqn:Hf; [|done].
  intros [= <-]. split; [|apply cancel_ok].
  apply orb_true_iff in Hf as [Hf|Hf];
    eauto using is_command_message, regex_line_message.
Qed.

Lemma conversation_none (B : backend) (st : option state) (inc : incoming) :
  conversation C B st inc = None -> plain_text inc = true -> st = None.
Proof.
  unfold conversation. destruct (_ || _); [done|].
  destruct st; [|done]. intros H Hp. by rewrite Hp in H.
Qed.

Lemma handle_update_ok (B : backend) (inc : incoming) (se : session) :
  wizard_inv se ->
  wizard_inv (handle_update C B inc se).2
  /\ carries_amount (data se) (handle_update C B inc se).1.
Proof.
  intros Hinv. unfold handle_update.
  destruct (is_command (utf8 "start") inc); [by apply outside_ok; [apply start_readonly|]|].
  destruct (is_command (utf8 "journal") inc); [by apply outside_ok; [apply journal_cmd_readonly|]|].
  destruct (is_command (utf8 "sheet") inc); [by apply outside_ok; [apply sheet_cmd_readonly|]|].
  destruct (is_command (utf8 "pdf") inc); [by apply outside_ok; [apply pdf_cmd_readonly|]|].
  destruct (is_command (utf8 "scan") inc); [by apply outside_ok; [apply scan_cmd_readonly|]|].
  destruct (callback_query (upd inc)); [by apply outside_ok; [apply on_callback_readonly|]|].
  destruct (conversation C B (conv se) inc) as [h|] eqn:Hh.
  - apply conversation_ok in Hh as [Hm Hok].
    specialize (Hok (upd inc) (data se) Hm). unfold trace_of, data_of, outcome_of in Hok.
    destruct (h (upd inc) (data se)) as [[t ud] r]. simpl in *.
    apply Hok. by destruct se.
  - destruct (plain_text inc) eqn:Hp.
    + apply menu_router_ok; [|done]. by eapply conversation_none.
    + split; [done|]. by apply no_create_carries.
Qed.

Lemma reachable_inv (se : session) : reachable C se -> wizard_inv se.
Proof.
  induction 1 as [|se B inc _ IH].
  - by apply wizard_inv_empty.
  - by apply handle_update_ok.
Qed.


(** C3, as amended: each optional step strips the surrounding whitespace
    of the text; what is left is stored as it is, except for a lone
    [-], which is stored as the empty string; and the step moves on to
    the next state, whatever the text. *)
Theorem optional_steps_store_stripped (se : session) (u : update) (t : option str) :
  reachable C se ->
  message u = Some t ->
  let s := strip (default [] t) in
  let v := PStr (if str_eqb s (utf8 "-") then [] else s) in
  on_recipient_name u (data se) =
    ([reply_text (utf8 "Имя дарителя (опционально). Или '-' чтобы пропустить.") None None],
     <[utf8 "recipient_name" := v]> (data se), Ok (Next DONOR_FIRST))
  /\ on_donor_first u (data se) =
    ([reply_text (utf8 "Фамилия дарителя (опционально). Или '-' чтобы пропустить.") None None],
     <[utf8 "firstname" := v]> (data se), Ok (Next DONOR_LAST))
  /\ on_donor_last u (data se) =
    ([reply_text (utf8 "Email получателя (опционально). Или '-' чтобы пропустить.") None None],
     <[utf8 "lastname" := v]> (data se), Ok (Next RECIPIENT_EMAIL))
  /\ exists summary,
      on_recipient_email u (data se) =
        ([reply_text summary
            (Some (ReplyKeyboardMarkup
               [ [ utf8 "📄 PDF в Telegram"; utf8 "✉️ На email" ]; [ utf8 "❌ Отмена" ] ]))
            None],
         <[utf8 "recipient_email" := v]> (data se), Ok (Next ACTION)).
Proof.
  intros Hr Hm s v. repeat split.
  - by apply on_recipient_name_run.
  - by apply on_donor_first_run.
  - by apply on_donor_last_run.
  - apply on_recipient_email_run; [done|]. apply (reachable_inv se Hr).
Qed.

End Invariant.

(** ** Action dispatcher *)

Section Tokens.
Context {U : Unicode}.

Lemma decimal_digit (k : N) : k < 10 -> decimal (48 + k) = Some k.
Proof.
  intros Hk. rewrite decimal_ascii by lia. unfold ascii_isdigit.
  destruct (N.leb_spec 48 (48 + k)), (N.leb_spec (48 + k) 57); simpl; try lia.
  f_equal. lia.
Qed.

Lemma int_digits_uint_value (d : Decimal.uint) (acc : N) (b : bool) :
  d <> Decimal.Nil \/ b = true ->
  int_digits (Repr.of_uint d) acc b = Some (uint_value d acc).
Proof.
  revert acc b. induction d; intros acc b Hb; cbn [Repr.of_uint int_digits uint_value].
  { destruct Hb as [? | ->]; done. }
  all: match goal with
    | |- context [decimal ?c] =>
      rewrite (decimal_digit (c - 48) eq_refl : decimal c = Some (c - 48))
    end; apply IHd; by right.
Qed.

Lemma uint_value_acc (d : Decimal.uint) (acc : positive) :
  uint_value d (Npos acc) = Npos (Pos.of_uint_acc d acc).
Proof.
  revert acc. induction d; intros acc; cbn [uint_value Pos.of_uint_acc]; [done|..].
  all: rewrite <- IHd; f_equal; lia.
Qed.

Lemma uint_value_0 (d : Decimal.uint) : uint_value d 0 = Pos.of_uint d.
Proof.
  induction d; cbn [uint_value Pos.of_uint]; [done|exact IHd|..].
  all: apply (uint_value_acc d).
Qed.

Lemma int_digits_of_uint (d : Decimal.uint) (b : bool) :
  d <> Decimal.Nil \/ b = true ->
  int_digits (Repr.of_uint d) 0 b = Some (Pos.of_uint d).
Proof. intros Hb. by rewrite int_digits_uint_value, uint_value_0. Qed.

Lemma of_uint_not_space (d : Decimal.uint) :
  Forall (fun c => int_isspace c = false) (Repr.of_uint d).
Proof. induction d; simpl; constructor; done. Qed.

Lemma of_uint_head (d : Decimal.uint) :
  match Repr.of_uint d with
  | c :: _ => (c =? 43) = false /\ (c =? 45) = false
  | [] => True
  end.
Proof. by destruct d. Qed.

(** [int(str(n)) == n] *)
Lemma int_of_str_of_Z (z : Z) : int_of_str (Repr.of_Z z) = Some z.
Proof.
  unfold int_of_str. destruct z as [|p|p]; simpl Repr.of_Z.
  - cbn. by rewrite (decimal_digit 0 eq_refl : decimal 48 = Some 0).
  - rewrite strip_by_none by apply of_uint_not_space.
    pose proof (of_uint_head (Pos.to_uint p)) as Hh.
    pose proof (int_digits_of_uint (Pos.to_uint p) false
                  (or_introl (DecimalPos.Unsigned.to_uint_nonnil p))) as Hd.
    destruct (Repr.of_uint (Pos.to_uint p)) as [|c r] eqn:E.
    + simpl in Hd. discriminate Hd.
    + cbv zeta. destruct Hh as [-> ->]. rewrite Hd, DecimalPos.Unsigned.of_to. done.
  - rewrite strip_by_none by (constructor; [done|apply of_uint_not_space]).
    cbv zeta. change (45 =? 43) with false. change (45 =? 45) with true. cbv iota.
    rewrite int_digits_of_uint by (left; apply DecimalPos.Unsigned.to_uint_nonnil).
    by rewrite DecimalPos.Unsigned.of_to.
Qed.

Lemma split1_token (verb id : str) :
  Forall (fun c => c <> 58) verb ->
  split1 58 (verb ++ 58 :: id) = (verb, Some id).
Proof.
  induction 1 as [|c r Hc _ IH]; simpl; [done|].
  destruct (N.eqb_spec c 58); [done|]. by rewrite IH.
Qed.

(** A token [verb:id] built from an integer reads back as that verb and
    that integer. *)
Lemma callback_token_roundtrip (verb : str) (gid : Z) :
  Forall (fun c => c <> 58) verb ->
  callback_token (verb ++ 58 :: Repr.of_Z gid) = Some (verb, gid).
Proof.
  intros Hv. unfold callback_token. rewrite split1_token by done.
  by rewrite int_of_str_of_Z.
Qed.

End Tokens.

Section Dispatcher.
Context {U : Unicode} (C : config) (B : backend).

Lemma api_route_inj (a b : str) : api_route C a = api_route C b -> a = b.
Proof. unfold api_route. by intros H%app_inv_head%app_inv_head. Qed.

Lemma other_route_not_delete (name : str) (p : dict) :
  name <> utf8 "delete" -> not_delete C (call_post (api_route C name) p).
Proof. intros Hn q [= H%api_route_inj _]. done. Qed.

Hint Extern 1 (not_delete _ _) => (intros ? ?; discriminate) : readonly.
Hint Extern 1 (not_delete _ (call_post _ _)) =>
  (apply other_route_not_delete; key_neq) : readonly.

Lemma fetch_cert_by_id_quiet gid : readonly (not_delete C) (fetch_cert_by_id B gid).
Proof. unfold fetch_cert_by_id, api_get. repeat (readonly_step; auto with readonly). Qed.

Lemma dispatch_other (action : str) (gid : Z) :
  str_eqb action (utf8 "del_yes") = false ->
  readonly (not_delete C) (dispatch C B action gid).
Proof.
  intros E. unfold dispatch. rewrite E.
  unfold show_refreshed, api_post, api_use, api_download_pdf, API_RESEND, API_ANNUL.
  repeat (readonly_step; auto using fetch_cert_by_id_quiet with readonly).
Qed.

(** C6: for every certificate id, [del] makes no backend call and only
    shows the confirmation prompt, whose two buttons carry the tokens
    [del_yes:id] and [del_no:id]; these read back as the same id;
    [del_no] makes no backend call; [del_yes] calls the delete endpoint
    once, with the id and the confirm flag; and a call of the delete
    endpoint can come from no other verb, and from no caller who is not
    privileged. *)
Theorem delete_needs_confirmation (gid : Z) (ud : dict) :
  let id := Repr.of_Z gid in
  dispatch C B (utf8 "del") gid ud =
    ([answer None false;
      reply_text (utf8 "Удалить сертификат #" ++ id ++ utf8 "? Код станет доступен снова.")
        (Some (InlineKeyboardMarkup
           [ [ CallbackButton (utf8 "✅ Да, удалить") (utf8 "del_yes:" ++ id);
               CallbackButton (utf8 "↩️ Отмена") (utf8 "del_no:" ++ id) ] ]))
        None],
     ud, Ok tt)
  /\ callback_token (utf8 "del_yes:" ++ id) = Some (utf8 "del_yes", gid)
  /\ callback_token (utf8 "del_no:" ++ id) = Some (utf8 "del_no", gid)
  /\ dispatch C B (utf8 "del_no") gid ud =
       ([answer (Some (utf8 "Ок, не удаляю.")) false], ud, Ok tt)
  /\ calls (trace_of (dispatch C B (utf8 "del_yes") gid ud)) =
       [call_post (API_DELETE C)
          {[ utf8 "giftcert_id" := PInt gid; utf8 "confirm" := PBool true ]}]
  /\ (forall action p,
        In (call_post (API_DELETE C) p) (trace_of (dispatch C B action gid ud)) ->
        action = utf8 "del_yes")
  /\ (forall u p,
        In (call_post (API_DELETE C) p) (trace_of (on_callback C B u ud)) ->
        is_admin C u = true /\
        exists data g, callback_query u = Some (Some data)
                       /\ callback_token data = Some (utf8 "del_yes", g)).
Proof.
  intros id. split; [reflexivity|].
  split; [apply (callback_token_roundtrip (utf8 "del_yes") gid); by repeat constructor|].
  split; [apply (callback_token_roundtrip (utf8 "del_no") gid); by repeat constructor|].
  split; [reflexivity|].
  split.
  { unfold dispatch.
    change (str_eqb (utf8 "del_yes") (utf8 "del")) with false.
    change (str_eqb (utf8 "del_yes") (utf8 "del_no")) with false.
    change (str_eqb (utf8 "del_yes") (utf8 "del_yes")) with true.
    cbv [api_post]. run. by destruct (success _). }
  assert (Hverb : forall action g p,
    In (call_post (API_DELETE C) p) (trace_of (dispatch C B action g ud)) ->
    action = utf8 "del_yes").
  { intros action g p Hin. destruct (str_eqb action (utf8 "del_yes")) eqn:E.
    - by apply bool_decide_eq_true in E.
    - destruct (dispatch_other action g E ud) as [Hq _].
      rewrite Forall_forall in Hq. apply list_elem_of_In, Hq in Hin. by destruct (Hin p). }
  split; [intros action p; apply Hverb|].
  intros u p. unfold on_callback.
  destruct (is_admin C u).
  2:{ destruct (callback_query u); run; simpl; intuition discriminate. }
  destruct (callback_query u) as [[[|c data]|]|]; run; simpl; try done.
  destruct (callback_token (c :: data)) as [[action g]|] eqn:Htok.
  - intros ->%Hverb. split; [done|]. by exists (c :: data), g.
  - run. simpl. intuition discriminate.
Qed.

End Dispatcher.

(** ** Presentation: HTML escaping *)

(** Closed texts are checked by evaluation. *)
Ltac tidy_const := repeat split; vm_compute; reflexivity.

Section Escaping.
Context {U : Unicode}.

Lemma scan_app (st : option str) (a b : str) :
  scan st (a ++ b) =
    let '(st1, t1) := scan st a in
    let '(st2, t2) := scan st1 b in (st2, t1 ++ t2).
Proof.
  revert st. induction a as [|c r IH]; intros st; simpl.
  - by destruct (scan st b).
  - destruct st as [name|].
    + destruct (c =? 62); [|apply IH].
      rewrite IH. destruct (scan None r) as [st1 t1]. by destruct (scan st1 b).
    + destruct (c =? 60); apply IH.
Qed.

Lemma count_app (c : N) (a b : str) : count c (a ++ b) = (count c a + count c b)%nat.
Proof. unfold count. by rewrite List.filter_app, length_app. Qed.

Lemma tidy_app (a b : str) : tidy a -> tidy b -> tidy (a ++ b).
Proof.
  unfold tidy, tags. intros (Ha1 & Ha2 & Ha3 & Ha4) (Hb1 & Hb2 & Hb3 & Hb4).
  rewrite scan_app, !count_app.
  destruct (scan None a) as [sa ta]. simpl in *. subst sa.
  destruct (scan None b) as [sb tb]. simpl in *. subst sb.
  rewrite forallb_app, length_app, Ha2, Hb2. repeat split; lia.
Qed.

Lemma plain_scan (s : str) : plain s -> scan None s = (None, []).
Proof.
  induction 1 as [|c r [H60 _] _ IH]; [done|].
  cbn [scan]. by destruct (N.eqb_spec c 60).
Qed.

Lemma plain_count (s : str) : plain s -> count 60 s = 0%nat /\ count 62 s = 0%nat.
Proof.
  unfold count. induction 1 as [|c r [H60 H62] _ [IH1 IH2]]; [done|].
  cbn [List.filter]. destruct (N.eqb_spec 60 c), (N.eqb_spec 62 c); done.
Qed.

Lemma plain_tidy (s : str) : plain s -> tidy s.
Proof.
  intros H. unfold tidy, tags. rewrite (plain_scan s H).
  destruct (plain_count s H) as [-> ->]. done.
Qed.

Lemma tidy_join (lines : list str) : Forall tidy lines -> tidy (join nl lines).
Proof.
  induction 1 as [|l rest Hl Hrest IH]; [apply plain_tidy; constructor|].
  simpl. destruct rest as [|l' rest']; [done|].
  apply tidy_app; [done|]. apply (tidy_app nl); [|done].
  apply plain_tidy. by repeat constructor.
Qed.

Lemma replace_in (c : N) (r s : str) (x : N) :
  In x (replace c r s) -> In x r \/ (In x s /\ x <> c).
Proof.
  unfold replace. intros (y & Hy & Hx)%in_flat_map.
  destruct (N.eqb_spec y c) as [->|Hne]; [by left|].
  destruct Hx as [<-|[]]. by right.
Qed.

Lemma esc_html_plain (v : pyval) : plain (esc_html v).
Proof.
  unfold esc_html. apply Forall_forall. intros x Hx%list_elem_of_In.
  apply replace_in in Hx as [Hx|[Hx H62]].
  { vm_compute in Hx. split; intros ->; intuition discriminate. }
  apply replace_in in Hx as [Hx|[Hx H60]]; [|done].
  vm_compute in Hx. split; intros ->; intuition discriminate.
Qed.

Lemma of_uint_plain (d : Decimal.uint) : plain (Repr.of_uint d).
Proof. induction d; simpl; constructor; done. Qed.

Lemma of_Z_plain (z : Z) : plain (Repr.of_Z z).
Proof.
  destruct z; simpl; [by repeat constructor|apply of_uint_plain|].
  constructor; [done|apply of_uint_plain].
Qed.

Lemma status_emoji_plain (st : pyval) (e : str) : status_emoji st = Ok e -> plain e.
Proof.
  unfold status_emoji. destruct (str_method lower _) as [s|]; [|done]. simpl.
  repeat match goal with |- context [if ?b then _ else _] => destruct b end;
    intros [= <-]; by repeat constructor.
Qed.

Lemma timestamp_lines_tidy (cert : dict) (ks : list (str * str)) (ls : list str) :
  Forall (fun kt => plain kt.2) ks ->
  timestamp_lines cert ks = Ok ls -> Forall tidy ls.
Proof.
  intros Hks. revert ls. induction Hks as [|[k title] rest Ht _ IH]; intros ls; simpl.
  { by intros [= <-]. }
  destruct (str_method strip _) as [v|]; [|done]. simpl.
  destruct (timestamp_lines cert rest) as [more|]; [|done]. simpl.
  intros [= <-]. apply Forall_app. split; [|by apply IH].
  destruct (nonempty v); [|done]. constructor; [|constructor].
  apply tidy_app; [by apply plain_tidy|].
  apply (tidy_app (utf8 ": <code>")); [tidy_const|].
  apply tidy_app; [apply plain_tidy, esc_html_plain|tidy_const].
Qed.

End Escaping.

Section Card.
Context {U : Unicode}.

(** C10: [esc_html] is defined on every value: [None] gives the empty
    string, any other value is turned into its [str()] and escaped; its
    result holds no [<] and no [>].  Whenever [format_cert] returns a
    card, every angle bracket of the card delimits one of the template's
    own tags ([b], [/b], [code], [/code]): no member of the certificate
    adds markup. *)
Theorem esc_html_guards_card (v : pyval) (cert : dict) :
  esc_html PNone = []
  /\ esc_html v = match v with PNone => [] | _ => esc_html (PStr (py_str v)) end
  /\ count 60 (esc_html v) = 0%nat
  /\ count 62 (esc_html v) = 0%nat
  /\ match format_cert cert with
     | Ok card =>
       (scan None card).1 = None
       /\ forallb template_tag (tags card) = true
       /\ count 60 card = length (tags card)
       /\ count 62 card = length (tags card)
     | Raise _ => True
     end.
Proof.
  split; [reflexivity|]. split; [by destruct v as [|[]| | |]|].
  destruct (plain_count _ (esc_html_plain v)) as [H60 H62].
  split; [done|]. split; [done|].
  unfold format_cert.
  destruct (status_emoji _) as [emoji|] eqn:He; cbn [mbind result_bind]; [|done].
  destruct (status_label _) as [label|]; cbn [mbind result_bind]; [|done].
  destruct (str_method strip (por (get cert (utf8 "recipient_name")) _)) as [rn|]; cbn [mbind result_bind]; [|done].
  destruct (str_method strip (por (get cert (utf8 "recipient_email")) _)) as [reml|]; cbn [mbind result_bind]; [|done].
  destruct (str_operand (por (get cert (utf8 "lastname")) _)) as [ln|]; cbn [mbind result_bind]; [|done].
  destruct (str_operand (por (get cert (utf8 "firstname")) _)) as [fn|]; cbn [mbind result_bind]; [|done].
  destruct (timestamp_lines _ _) as [stamps|] eqn:Hs; cbn [mbind result_bind]; [|done].
  destruct (py_int _) as [oid|]; cbn [mbind result_bind]; [|done].
  change (tidy (join nl
    ([utf8 "🎟 <b>Сертификат</b>";
      utf8 "ID: <b>" ++ esc_html (get_or cert (utf8 "giftcert_id") (PStr [])) ++ utf8 "</b>";
      utf8 "Код: <b>" ++ esc_html (get_or cert (utf8 "code") (PStr [])) ++ utf8 "</b>";
      utf8 "Сумма: <b>" ++ esc_html (get_or cert (utf8 "amount") (PStr [])) ++ utf8 " BYN</b>";
      utf8 "Статус: " ++ emoji ++ utf8 " <b>" ++ esc_html label ++ utf8 "</b>";
      utf8 "Источник: <code>"
        ++ esc_html (por (get cert (utf8 "source")) (PStr (utf8 "—"))) ++ utf8 "</code>"]
     ++ (if nonempty rn || nonempty reml
         then [utf8 "Получатель: <b>" ++ esc_html (por (PStr rn) (PStr (utf8 "—")))
               ++ utf8 "</b> — " ++ esc_html (por (PStr reml) (PStr (utf8 "—")))]
         else [])
     ++ (if nonempty (strip (ln ++ utf8 " " ++ fn))
         then [utf8 "Даритель: <b>" ++ esc_html (PStr (strip (ln ++ utf8 " " ++ fn)))
               ++ utf8 "</b>"]
         else [])
     ++ stamps
     ++ (if negb (oid =? 0)%Z
         then [utf8 "Заказ: <code>#" ++ Repr.of_Z oid ++ utf8 "</code>"]
         else [])))).
  apply tidy_join.
  assert (Hesc : forall x, tidy (esc_html x)) by (intros x; apply plain_tidy, esc_html_plain).
  assert (Hwrap : forall (a b : str) x, tidy a -> tidy b -> tidy (a ++ esc_html x ++ b)).
  { intros a b x Ha Hb. apply tidy_app; [done|]. by apply tidy_app. }
  repeat apply Forall_app_2.
  - repeat (apply Forall_cons_2 || apply Forall_nil_2);
      try (apply Hwrap; tidy_const); try tidy_const.
    apply (tidy_app (utf8 "Статус: ")); [tidy_const|].
    apply tidy_app; [eapply plain_tidy, status_emoji_plain, He|].
    apply (tidy_app (utf8 " <b>")); [tidy_const|].
    apply tidy_app; [done|tidy_const].
  - destruct (_ || _); [|apply Forall_nil_2].
    apply Forall_cons_2; [|apply Forall_nil_2].
    apply Hwrap; [tidy_const|]. apply (tidy_app (utf8 "</b> — ")); [tidy_const|done].
  - destruct (nonempty _); [|apply Forall_nil_2].
    apply Forall_cons_2; [|apply Forall_nil_2]. apply Hwrap; tidy_const.
  - eapply timestamp_lines_tidy; [|exact Hs].
    repeat (apply Forall_cons_2 || apply Forall_nil_2); by repeat constructor.
  - destruct (negb _); [|apply Forall_nil_2].
    apply Forall_cons_2; [|apply Forall_nil_2].
    apply (tidy_app (utf8 "Заказ: <code>#")); [tidy_const|].
    apply tidy_app; [apply plain_tidy, of_Z_plain|tidy_const].
Qed.

End Card.

(** ** Sample runs *)

Section Witnesses.
Import Sample.

Lemma reachable_run `{U : Unicode} (C : config) (B : backend)
    (incs : list incoming) (se : session) :
  reachable C se -> reachable C (handle_updates C B incs se).2.
Proof.
  revert se. induction incs as [|inc rest IH]; intros se Hr; simpl; [done|].
  pose proof (reachable_step C se B inc Hr) as Hstep.
  destruct (handle_update C B inc se) as [t se']. simpl in Hstep.
  specialize (IH se' Hstep). by destruct (handle_updates C B rest se').
Qed.




Lemma optional_steps_store_stripped_witness :
  let u := says 1001 (utf8 "-") in
  let ud := data after_amount in
  on_recipient_name (U := latin1) u ud =
    ([reply_text (utf8 "Имя дарителя (опционально). Или '-' чтобы пропустить.") None None],
     <[utf8 "recipient_name" := PStr []]> ud, Ok (Next DONOR_FIRST))
  /\ on_donor_first (U := latin1) u ud =
    ([reply_text (utf8 "Фамилия дарителя (опционально). Или '-' чтобы пропустить.") None None],
     <[utf8 "firstname" := PStr []]> ud, Ok (Next DONOR_LAST))
  /\ on_donor_last (U := latin1) u ud =
    ([reply_text (utf8 "Email получателя (опционально). Или '-' чтобы пропустить.") None None],
     <[utf8 "lastname" := PStr []]> ud, Ok (Next RECIPIENT_EMAIL))
  /\ exists summary,
      on_recipient_email (U := latin1) u ud =
        ([reply_text summary
            (Some (ReplyKeyboardMarkup
               [ [ utf8 "📄 PDF в Telegram"; utf8 "✉️ На email" ]; [ utf8 "❌ Отмена" ] ]))
            None],
         <[utf8 "recipient_email" := PStr []]> ud, Ok (Next ACTION)).
Proof.
  apply (optional_steps_store_stripped (U := latin1) shop after_amount
           (says 1001 (utf8 "-")) (Some (utf8 "-"))).
  - apply reachable_run, reachable_idle.
  - reflexivity.
Defined.

(** C3, as stated, fails: a text with a leading space is not stored as
    it is. *)
Lemma optional_step_counterexample :
  let text := utf8 " Anna" in
  text <> utf8 "-"
  /\ data_of (on_recipient_name (U := latin1) (says 1001 text) ∅) !! utf8 "recipient_name"
      = Some (PStr (utf8 "Anna"))
  /\ utf8 "Anna" <> text.
Proof. repeat split; try key_neq; vm_compute; reflexivity. Qed.

Lemma on_amount_cases_witness :
  on_amount (U := latin1) (says 1001 (utf8 "70")) ∅ =
    ([reply_text (utf8 "Имя получателя (опционально). Или напишите '-' чтобы пропустить.") None None],
     <[utf8 "amount" := PInt 70]> ∅, Ok (Next RECIPIENT_NAME)).
Proof.
  pose proof (on_amount_cases (U := latin1) (says 1001 (utf8 "70")) ∅
                (Some (utf8 "70")) eq_refl) as H.
  cbv zeta in H.
  change (str_isdecimal (U := latin1) (strip (U := latin1) (default [] (Some (utf8 "70")))))
    with true in H.
  cbv iota in H. destruct H as (n & Hn & H).
  vm_compute in Hn. destruct n as [|p]; [discriminate Hn|].
  injection Hn as <-. exact H.
Defined.

(** C4, as stated, fails: [ 70] with a leading space is not a string of
    decimal digits, and yet the amount step stores 70 and moves on. *)
Lemma on_amount_counterexample :
  let text := utf8 " 70" in
  let r := on_amount (U := latin1) (says 1001 text) ∅ in
  str_isdecimal (U := latin1) text = false
  /\ outcome_of r = Ok (Next RECIPIENT_NAME)
  /\ data_of r !! utf8 "amount" = Some (PInt 70).
Proof. repeat split; vm_compute; reflexivity. Qed.

(** The superscript two is a digit for [str.isdigit] and no digit for
    [int()]: the amount step raises, without a reply. *)
Lemma on_amount_superscript :
  on_amount (U := latin1) (says 1001 [178]) ∅ = ([], ∅, Raise ValueError).
Proof. vm_compute. reflexivity. Qed.



Lemma email_choice_without_email_witness :
  on_action (U := latin1) shop down (says 1001 (utf8 "✉️ На email")) collected =
    ([reply_text (utf8 "Вы выбрали email, но email не указан. Введите email или выберите PDF в Telegram.") None None],
     collected, Ok (Next ACTION)).
Proof.
  apply (email_choice_without_email (U := latin1) shop down
           (says 1001 (utf8 "✉️ На email")) collected (Some (utf8 "✉️ На email")));
    vm_compute; reflexivity.
Defined.

(** The wizard from end to end: [/new], 70, four skipped steps, the PDF
    choice.  One creation call with the collected values, one download
    keyed by the returned id, and the conversation is over. *)
Lemma wizard_end_to_end :
  let run := handle_updates (U := latin1) shop no_pdf
    [ sent_command 1001 (utf8 "new") []; typed 1001 (utf8 "70");
      typed 1001 (utf8 "-"); typed 1001 (utf8 "-"); typed 1001 (utf8 "-");
      typed 1001 (utf8 "-"); typed 1001 (utf8 "📄 PDF в Telegram") ] idle in
  calls run.1 = [call_create (creation_payload collected false); call_download_pdf 17 []]
  /\ conv run.2 = None.
Proof. split; vm_compute; reflexivity. Qed.

End Witnesses.
